(** * masterkey: the step-sequencing core of the TokenManager

    A shallow embedding of [lib/TokenManager.js], [lib/Types/AuthResult.js],
    [lib/Types/AuthChallenge.js] and [lib/Types/ValueObject.js], and the
    properties of the multi-step authentication protocol they implement.

    Promises are modelled in a state-and-error monad: a fulfilled promise is
    [inr v], a rejected one is [inl e], and [.then] is the monadic bind.  The
    state carries the outside world (the clock and whatever the back-ends
    store) and a log of the calls made to external collaborators. *)

From Stdlib Require Import ZArith Lia Ascii.
From stdpp Require Import base option list gmap strings.

Local Open Scope string_scope.
Local Open Scope list_scope.
Local Open Scope Z_scope.

(** ** JavaScript values *)

Module JS.

(** The JavaScript values that reach the code under study.  Numbers and
    plain objects never occur as a token, a flag or a method list. *)
#[warnings="-register-all"]
Inductive Value : Type :=
| Undefined
| Null
| Bool (b : bool)
| Str (s : string)
| Arr (l : list Value).

(** [Boolean(v)], also the truthiness tested by [if (v)] and [!v]. *)
Definition ToBoolean (v : Value) : bool :=
  match v with
  | Undefined | Null => false
  | Bool b => b
  | Str s => negb (String.eqb s "")
  | Arr _ => true
  end.

(** [String(v)].  An array is joined with commas, a null or undefined
    element contributing the empty string. *)
Fixpoint ToString (v : Value) : string :=
  match v with
  | Undefined => "undefined"
  | Null => "null"
  | Bool true => "true"
  | Bool false => "false"
  | Str s => s
  | Arr l =>
      (fix join (l : list Value) : string :=
         match l with
         | [] => ""
         | x :: r =>
             let sx := match x with
                       | Undefined | Null => ""
                       | _ => ToString x
                       end in
             match r with
             | [] => sx
             | _ :: _ => sx +:+ "," +:+ join r
             end
         end) l
  end.

(** [Array.isArray(v)] *)
Definition isArray (v : Value) : bool :=
  match v with Arr _ => true | _ => false end.

(** [v.length] of an array *)
Definition length (v : Value) : Z :=
  match v with Arr l => Z.of_nat (List.length l) | _ => 0 end.

(** A destructuring default [{ x = d }] replaces only [undefined]. *)
Definition default (d v : Value) : Value :=
  match v with Undefined => d | _ => v end.

(** Truthiness of a [?string] parameter: [null], [undefined] (both [None])
    and the empty string are falsy. *)
Definition truthy (s : option string) : bool :=
  match s with
  | None => false
  | Some s => negb (String.eqb s "")
  end.

(** An optional string as a value; [None] reads as [undefined]. *)
Definition of_option (s : option string) : Value :=
  match s with Some s => Str s | None => Undefined end.

(** A thrown value or rejection reason: the constructor's name and the
    message. *)
Record Error : Type := MkError { name : string; message : string }.

Definition mkError (msg : string) : Error := MkError "Error" msg.
Definition TypeError (msg : string) : Error := MkError "TypeError" msg.

(** [arr.indexOf(x)] on an array of strings: the first index holding [x],
    or -1.  Nothing in such an array is strictly equal to [undefined] or
    [null]. *)
Fixpoint indexOf_from (l : list string) (x : string) (i : Z) : Z :=
  match l with
  | [] => -1
  | y :: r => if String.eqb y x then i else indexOf_from r x (i + 1)
  end.

Definition indexOf (l : list string) (x : option string) : Z :=
  match x with
  | None => -1
  | Some x => indexOf_from l x 0
  end.

(** [arr[i]]: [undefined] ([None]) outside the array. *)
Definition get (l : list string) (i : Z) : option string :=
  if i <? 0 then None else l !! Z.to_nat i.

End JS.

(** ** Value objects *)

(** [ValueObject]: the constructor copies the given fields and freezes the
    object, so an instance is an immutable record. *)

(** [AuthResult] *)
Module AuthResult.

Record t : Type := Make { token : string; final : bool; next : JS.Value }.

(** The argument object of the constructor; an absent property is
    [JS.Undefined]. *)
Record args : Type := Args { arg_token : JS.Value; arg_final : JS.Value; arg_next : JS.Value }.

Definition invalid : JS.Error := JS.mkError "Invalid AuthResult data passed to the constructor".

Definition constructor (a : args) : JS.Error + t :=
  let token := arg_token a in
  let final := JS.default (JS.Bool true) (arg_final a) in
  let next := JS.default JS.Null (arg_next a) in
  let token := JS.ToString token in
  let final := JS.ToBoolean final in
  if negb (JS.truthy (Some token))
     || (negb final
         && (negb (JS.ToBoolean next) || negb (JS.isArray next) || (JS.length next =? 0)))
  then inl invalid
  else inr (Make token final next).

End AuthResult.

(** [AuthChallenge] *)
Module AuthChallenge.

Record t : Type := Make { content : JS.Value; method : string; sent : bool }.

Record args : Type := Args { arg_content : JS.Value; arg_method : JS.Value; arg_sent : JS.Value }.

Definition constructor (a : args) : t :=
  let content := JS.default JS.Null (arg_content a) in
  let sent := JS.default (JS.Bool false) (arg_sent a) in
  let method := JS.ToString (arg_method a) in
  let sent := JS.ToBoolean sent in
  Make content method sent.

End AuthChallenge.

(** ** The signed token primitive *)

(** [jsonwebtoken] is an external collaborator: its two entry points are
    taken as parameters, and the contract the orchestrator relies on is
    stated as laws. *)
Module JWT.

(** The object handed to [JWT.sign]: the two custom claims.  A property set
    to [undefined] is dropped by the serialization, hence the option. *)
Record Claims : Type := MkClaims { from : option string; final : bool }.

(** The object [JWT.verify] yields: the custom claims and the registered
    ones ([sub], [iat], [exp], in seconds). *)
Record Payload : Type := MkPayload { claims : Claims; sub : string; iat : Z; exp : Z }.

(** [sign claims key subject expiresIn now] and [verify token key subject now],
    both with the algorithm fixed to HS256 and both reading the clock. *)
Record Primitive : Type := MkPrimitive {
  sign : Claims -> string -> string -> Z -> Z -> JS.Error + string;
  verify : string -> string -> string -> Z -> JS.Error + Payload
}.

(** What is assumed of the primitive: before the expiry a token verifies,
    under the key and subject it was signed with, to the claims signed;
    however a signed token verifies, the custom claims are the ones signed;
    and the empty string is no token. *)
Record Lawful (P : Primitive) : Prop := MkLawful {
  verify_sign : forall c k s ttl t tok t',
    sign P c k s ttl t = inr tok -> t' < t + ttl ->
    verify P tok k s t' = inr (MkPayload c s t (t + ttl));
  verify_claims : forall c k s ttl t tok s' t' p,
    sign P c k s ttl t = inr tok -> verify P tok k s' t' = inr p -> claims p = c;
  verify_empty : forall k s t p, verify P "" k s t <> inr p
}.

(** ['8h'] in seconds *)
Definition expiresIn : Z := 8 * 3600.

End JWT.

(** ** The outside world, and promises *)

Section Orchestrator.

(** What the back-ends keep (a credential store, pending codes). *)
Context {Store : Type}.

Record World : Type := MkWorld { now : Z; store : Store }.

(** Calls that leave the orchestrator, in the order they are made. *)
Inductive Event : Type :=
| EvVerify (token subject : string)
| EvAuthenticate (method subjectID secret : string)
| EvSign (claims : JWT.Claims) (subject : string)
| EvRequestChallenge (method subjectID : string).

Definition is_backend_event (ev : Event) : bool :=
  match ev with
  | EvAuthenticate _ _ _ | EvRequestChallenge _ _ => true
  | _ => false
  end.

Definition is_sign_event (ev : Event) : bool :=
  match ev with EvSign _ _ => true | _ => false end.

Record State : Type := MkState { world : World; log : list Event }.

(** A promise, run to settlement: rejected with a reason or fulfilled with
    a value. *)
Definition Promise (A : Type) : Type := State -> (JS.Error + A) * State.

Definition resolve {A} (a : A) : Promise A := fun s => (inr a, s).
Definition reject {A} (e : JS.Error) : Promise A := fun s => (inl e, s).

(** [p.then(k)] *)
Definition then_ {A B} (p : Promise A) (k : A -> Promise B) : Promise B :=
  fun s =>
    match p s with
    | (inl e, s') => (inl e, s')
    | (inr a, s') => k a s'
    end.

Definition record (ev : Event) (s : State) : State :=
  MkState (world s) (log s ++ [ev]).

(** An authentication back-end: [authenticate] is mandatory,
    [requestChallenge] an optional capability.  Each call may read and
    change the world. *)
Record Backend : Type := MkBackend {
  authenticate : string -> string -> World -> (JS.Error + unit) * World;
  requestChallenge : option (string -> World -> (JS.Error + AuthChallenge.t) * World)
}.

End Orchestrator.

Arguments World : clear implicits.
Arguments State : clear implicits.
Arguments Promise : clear implicits.
Arguments Backend : clear implicits.

Declare Scope promise_scope.
Delimit Scope promise_scope with promise.
Notation "x <- p ;; k" := (then_ p (fun x => k))
  (at level 100, p at next level, right associativity) : promise_scope.

(** ** TokenManager *)

Module TokenManager.

Section Manager.

Context {Store : Type}.

(** The [jsonwebtoken] module the file requires. *)
Variable JWT_ : JWT.Primitive.

Record TokenParameters : Type := MkTokenParameters { key : string }.

(** The fields the constructor copies from its argument.  [userDB] and
    [revokeDB] are stored as well and never read. *)
Record t : Type := Make {
  _authBackends : gmap string (Backend Store);
  _authSteps : list string;
  _tokenParameters : TokenParameters
}.

(** The object [_verifyPreviousToken] fulfills with. *)
Record VerificationResult : Type := MkVerificationResult {
  payload : option JWT.Payload;
  method : option string
}.

(** [obj[k]] on the back-end mapping: the key is the string form of [k].
    Only the configured entries are back-ends; what a plain object inherits
    ([constructor], [toString]) has no [authenticate] either, and calling
    it throws the same kind of error as a missing entry does. *)
Definition property (backends : gmap string (Backend Store)) (k : option string) : option (Backend Store) :=
  backends !! JS.ToString (JS.of_option k).

(** [nodefn.call(JWT.verify, token, key, { algorithms: ['HS256'], subject })] *)
Definition call_verify (token key subject : string) : Promise Store JWT.Payload :=
  fun s => (JWT.verify JWT_ token key subject (now (world s)), record (EvVerify token subject) s).

(** [nodefn.call(JWT.sign, claims, key, { algorithm: 'HS256', expiresIn: '8h', subject })] *)
Definition call_sign (claims : JWT.Claims) (key subject : string) : Promise Store string :=
  fun s => (JWT.sign JWT_ claims key subject JWT.expiresIn (now (world s)), record (EvSign claims subject) s).

(** [backend.authenticate({ subjectID, secret })] for the back-end
    registered under [name] *)
Definition call_authenticate (name : string) (backend : Backend Store) (subjectID secret : string) : Promise Store unit :=
  fun s =>
    let '(r, w) := authenticate backend subjectID secret (world s) in
    (r, MkState w (log s ++ [EvAuthenticate name subjectID secret])).

(** [backend.requestChallenge({ subjectID })] *)
Definition call_requestChallenge (name : string) (backend : Backend Store) (subjectID : string) : Promise Store AuthChallenge.t :=
  match requestChallenge backend with
  | None => reject (JS.TypeError "backends[chosenMethod].requestChallenge is not a function")
  | Some f =>
      fun s =>
        let '(r, w) := f subjectID (world s) in
        (r, MkState w (log s ++ [EvRequestChallenge name subjectID]))
  end.

Definition err_final : JS.Error :=
  JS.mkError "The token passed as previous token was a final token - no subsequent authentication is needed".
Definition err_previous_step : JS.Error :=
  JS.mkError "The previous authentication step is invalid".
Definition err_method : JS.Error :=
  JS.mkError "Invalid authentication method selected".

Definition _getTokenForSecret (self : t) (subjectID secret : string) (method : option string) (final : bool) : Promise Store string :=
  match property (_authBackends self) method with
  | None => reject (JS.TypeError "Cannot read property 'authenticate' of undefined")
  | Some backend =>
      (_ <- call_authenticate (JS.ToString (JS.of_option method)) backend subjectID secret ;;
       call_sign (JWT.MkClaims method final) (key (_tokenParameters self)) subjectID)%promise
  end.

Definition _verifyPreviousToken (self : t) (previousToken : option string) (subjectID : string) (method : option string) : Promise Store VerificationResult :=
  let authSteps := _authSteps self in
  let verificationPromise : Promise Store (option JWT.Payload) :=
    if JS.truthy previousToken then
      (payload <- call_verify (default "" previousToken) (key (_tokenParameters self)) subjectID ;;
       resolve (Some payload))%promise
    else resolve None in
  (payload <- verificationPromise ;;
   match payload with
   | Some p =>
       if JWT.final (JWT.claims p) then reject err_final
       else
         let previousMethodIndex := JS.indexOf authSteps (JWT.from (JWT.claims p)) in
         if previousMethodIndex <? 0 then reject err_previous_step
         else
           let method :=
             if negb (JS.truthy method) then JS.get authSteps (previousMethodIndex + 1)
             else method in
           let currentMethodIndex := JS.indexOf authSteps method in
           if (currentMethodIndex <? 0) || negb (currentMethodIndex =? previousMethodIndex + 1)
           then reject err_method
           else resolve (MkVerificationResult payload method)
   | None =>
       let method :=
         if negb (JS.truthy method) then JS.get authSteps 0 else method in
       let currentMethodIndex := JS.indexOf authSteps method in
       if negb (currentMethodIndex =? 0) then reject err_method
       else resolve (MkVerificationResult payload method)
   end)%promise.

Definition getToken (self : t) (previousToken : option string) (subjectID secret : string) (method : option string) : Promise Store AuthResult.t :=
  let authSteps := _authSteps self in
  let verificationPromise := _verifyPreviousToken self previousToken subjectID method in
  (verificationResult <- verificationPromise ;;
   let '(MkVerificationResult _ verificationResult_method) := verificationResult in
   let currentMethodIndex := JS.indexOf authSteps verificationResult_method in
   let currentMethodIsFinal := currentMethodIndex =? Z.of_nat (length authSteps) - 1 in
   token <- _getTokenForSecret self subjectID secret verificationResult_method currentMethodIsFinal ;;
   fun s =>
     (AuthResult.constructor
        (AuthResult.Args (JS.Str token) (JS.Bool currentMethodIsFinal)
           (if currentMethodIsFinal then JS.Null
            else JS.Arr [JS.of_option (JS.get authSteps (currentMethodIndex + 1))])), s))%promise.

Definition requestChallenge (self : t) (subjectID : string) (previousToken method : option string) : Promise Store AuthChallenge.t :=
  let backends := _authBackends self in
  (r <- _verifyPreviousToken self previousToken subjectID method ;;
   let '(MkVerificationResult payload chosenMethod) := r in
   match property backends chosenMethod with
   | None => reject (JS.TypeError "Cannot read property 'requestChallenge' of undefined")
   | Some backend => call_requestChallenge (JS.ToString (JS.of_option chosenMethod)) backend subjectID
   end)%promise.

(** What [_verifyPreviousToken] adds to the log: at most the call to the
    verifier. *)
Definition resolution_events (previousToken : option string) (subjectID : string) : list Event :=
  if JS.truthy previousToken then [EvVerify (default "" previousToken) subjectID] else [].

(** [Chain self n r]: [r] is the result of the last of [n] successful
    [getToken] calls, the first made without a previous token and each
    later one supplying the token of the call before it.  Subject, secret,
    requested method and the state of the world are free at every call. *)
Inductive Chain (self : t) : nat -> AuthResult.t -> Prop :=
| Chain_first previousToken subjectID secret method s r s' :
    JS.truthy previousToken = false ->
    getToken self previousToken subjectID secret method s = (inr r, s') ->
    Chain self 1 r
| Chain_next n prev subjectID secret method s r s' :
    Chain self n prev ->
    getToken self (Some (AuthResult.token prev)) subjectID secret method s = (inr r, s') ->
    Chain self (S n) r.

End Manager.

Arguments t : clear implicits.

End TokenManager.

(** ** A transparent token primitive

    An unencrypted stand-in for [jsonwebtoken] that the scenarios of the
    test suite can be run with: the token spells out the claims, the
    subject, the key and the two dates, and verification reads them back.
    It shows that the laws of [JWT.Lawful] can be met. *)

Module PlainToken.

(** A string, each character announced by a colon, closed by a full stop. *)
Fixpoint enc_string (s : string) : string :=
  match s with
  | EmptyString => String "."%char EmptyString
  | String a r => String ":"%char (String a (enc_string r))
  end.

Fixpoint dec_string (tok : string) : option (string * string) :=
  match tok with
  | String "."%char r => Some (EmptyString, r)
  | String ":"%char (String a r) =>
      match dec_string r with
      | Some (s, r') => Some (String a s, r')
      | None => None
      end
  | _ => None
  end.

(** A positive number, lowest bit first, closed by a full stop. *)
Fixpoint enc_positive (p : positive) : string :=
  match p with
  | xH => String "."%char EmptyString
  | xO q => String "0"%char (enc_positive q)
  | xI q => String "1"%char (enc_positive q)
  end.

Fixpoint dec_positive (tok : string) : option (positive * string) :=
  match tok with
  | String "."%char r => Some (xH, r)
  | String "0"%char r =>
      match dec_positive r with Some (q, r') => Some (xO q, r') | None => None end
  | String "1"%char r =>
      match dec_positive r with Some (q, r') => Some (xI q, r') | None => None end
  | _ => None
  end.

Definition enc_Z (z : Z) : string :=
  match z with
  | Z0 => String "z"%char EmptyString
  | Zpos p => String "p"%char (enc_positive p)
  | Zneg p => String "n"%char (enc_positive p)
  end.

Definition dec_Z (tok : string) : option (Z * string) :=
  match tok with
  | String "z"%char r => Some (Z0, r)
  | String "p"%char r =>
      match dec_positive r with Some (p, r') => Some (Zpos p, r') | None => None end
  | String "n"%char r =>
      match dec_positive r with Some (p, r') => Some (Zneg p, r') | None => None end
  | _ => None
  end.

Definition enc_claims (c : JWT.Claims) : string :=
  String (if JWT.final c then "T"%char else "F"%char)
    (match JWT.from c with
     | Some m => String "S"%char (enc_string m)
     | None => String "U"%char EmptyString
     end).

Definition dec_claims (tok : string) : option (JWT.Claims * string) :=
  match tok with
  | String f (String "S"%char r) =>
      match dec_string r with
      | Some (m, r') =>
          if Ascii.eqb f "T"%char then Some (JWT.MkClaims (Some m) true, r')
          else if Ascii.eqb f "F"%char then Some (JWT.MkClaims (Some m) false, r')
          else None
      | None => None
      end
  | String f (String "U"%char r) =>
      if Ascii.eqb f "T"%char then Some (JWT.MkClaims None true, r)
      else if Ascii.eqb f "F"%char then Some (JWT.MkClaims None false, r)
      else None
  | _ => None
  end.

(** The whole token: payload, then the key in place of a signature. *)
Definition encode (p : JWT.Payload) (key : string) : string :=
  enc_claims (JWT.claims p) +:+ enc_string (JWT.sub p) +:+ enc_Z (JWT.iat p)
    +:+ enc_Z (JWT.exp p) +:+ enc_string key.

Definition decode (tok : string) : option (JWT.Payload * string) :=
  match dec_claims tok with
  | Some (c, r1) =>
      match dec_string r1 with
      | Some (s, r2) =>
          match dec_Z r2 with
          | Some (i, r3) =>
              match dec_Z r3 with
              | Some (e, r4) =>
                  match dec_string r4 with
                  | Some (k, EmptyString) => Some (JWT.MkPayload c s i e, k)
                  | _ => None
                  end
              | None => None
              end
          | None => None
          end
      | None => None
      end
  | None => None
  end.

Definition JsonWebTokenError (msg : string) : JS.Error := JS.MkError "JsonWebTokenError" msg.
Definition TokenExpiredError : JS.Error := JS.MkError "TokenExpiredError" "jwt expired".

Definition sign (c : JWT.Claims) (key subject : string) (ttl now : Z) : JS.Error + string :=
  if String.eqb key "" then inl (JS.mkError "secretOrPrivateKey must have a value")
  else inr (encode (JWT.MkPayload c subject now (now + ttl)) key).

Definition verify (tok key subject : string) (now : Z) : JS.Error + JWT.Payload :=
  if String.eqb tok "" then inl (JsonWebTokenError "jwt must be provided")
  else
    match decode tok with
    | None => inl (JsonWebTokenError "jwt malformed")
    | Some (p, k) =>
        if negb (String.eqb k key) then inl (JsonWebTokenError "invalid signature")
        else if JWT.exp p <=? now then inl TokenExpiredError
        else if negb (String.eqb (JWT.sub p) subject)
             then inl (JsonWebTokenError "jwt subject invalid")
        else inr p
    end.

Definition primitive : JWT.Primitive := JWT.MkPrimitive sign verify.

End PlainToken.

(** ** The back-ends of the test suite *)

Module TestSuite.

(** What the simulated back-ends keep: the pending codes of [CodeBackend],
    the identifiers [uuid.v4()] will hand out, and the codes passed to the
    callback so far. *)
Record Store : Type := MkStore {
  userCodes : gmap string string;
  uuids : list string;
  delivered : list (string * string)
}.

Definition tokenKey : string := "chess-verify=barrel".

Definition passwords : gmap string string := {[ "user1" := "password1" ]}.

(** [passwordBackend]: a look-up of the stored password. *)
Definition passwordBackend : Backend Store :=
  MkBackend
    (fun subjectID secret w =>
       if JS.truthy (passwords !! subjectID) && JS.truthy (Some secret)
          && bool_decide (passwords !! subjectID = Some secret)
       then (inr tt, w)
       else (inl (JS.mkError "Invalid password or no such user"), w))
    None.

(** [uuid.v4()]: the next identifier of the supply. *)
Definition uuid_v4 (st : Store) : string * Store :=
  match uuids st with
  | u :: rest => (u, MkStore (userCodes st) rest (delivered st))
  | [] => ("00000000-0000-4000-8000-000000000000", st)
  end.

(** The callback given to the [CodeBackend] constructor; here it files the
    code. *)
Definition codeCallback (subjectID code : string) (st : Store) : Store :=
  MkStore (userCodes st) (uuids st) (delivered st ++ [(subjectID, code)]).

(** [CodeBackend]: codes sent through an independent channel. *)
Definition CodeBackend : Backend Store :=
  MkBackend
    (fun subjectID secret w =>
       let st := store w in
       let userCode := userCodes st !! subjectID in
       if JS.truthy userCode && bool_decide (userCode = Some secret)
       then (inr tt, MkWorld (now w) (MkStore (delete subjectID (userCodes st)) (uuids st) (delivered st)))
       else (inl (JS.mkError "Invalid code"), w))
    (Some (fun subjectID w =>
       let st := store w in
       let '(code, st) :=
         match userCodes st !! subjectID with
         | Some code => (code, st)
         | None =>
             let '(code, st) := uuid_v4 st in
             (code, MkStore (<[subjectID := code]> (userCodes st)) (uuids st) (delivered st))
         end in
       let st := codeCallback subjectID code st in
       (inr (AuthChallenge.constructor (AuthChallenge.Args JS.Null JS.Undefined (JS.Bool true))),
        MkWorld (now w) st))).

(** The managers the tests build: password only, and password followed by
    a code. *)
Definition single : TokenManager.t Store :=
  TokenManager.Make {[ "password" := passwordBackend ]} [ "password" ]
    (TokenManager.MkTokenParameters tokenKey).

Definition twoFactor : TokenManager.t Store :=
  TokenManager.Make {[ "password" := passwordBackend; "code" := CodeBackend ]}
    [ "password"; "code" ] (TokenManager.MkTokenParameters tokenKey).

Definition start : State Store :=
  MkState (MkWorld 1000 (MkStore ∅ [ "c0de" ] [])) [].

(** The world once a code has been sent to [user1]. *)
Definition challenged : State Store :=
  MkState (MkWorld 1060 (MkStore {[ "user1" := "c0de" ]} [] [("user1", "c0de")])) [].

Definition token_of (r : JS.Error + AuthResult.t) : string :=
  match r with inr a => AuthResult.token a | inl _ => "" end.

(** The token of the first of two steps, and the token of a completed
    single-step log-in. *)
Definition intermediateToken : string :=
  Eval vm_compute in
    token_of (fst (TokenManager.getToken PlainToken.primitive twoFactor None "user1" "password1" None start)).

(** What the intermediate token verifies to. *)
Definition intermediatePayload : JWT.Payload :=
  JWT.MkPayload (JWT.MkClaims (Some "password") false) "user1" 1000 29800.

(** The results of the two steps of a two-factor log-in, the second one
    made once the code has been sent. *)
Definition firstResult : AuthResult.t :=
  AuthResult.Make intermediateToken false (JS.Arr [JS.Str "code"]).

Definition secondResult : AuthResult.t :=
  Eval vm_compute in
    match fst (TokenManager.getToken PlainToken.primitive twoFactor
                 (Some intermediateToken) "user1" "c0de" None challenged) with
    | inr r => r
    | inl _ => AuthResult.Make "" false JS.Null
    end.

Definition finalToken : string :=
  Eval vm_compute in
    token_of (fst (TokenManager.getToken PlainToken.primitive single None "user1" "password1" None start)).

End TestSuite.


(** ** RedisPasswordBackend *)

(** [new AuthenticationFailed()], as the back-ends throw it: the message is
    fixed and [data] is left undefined. *)
Definition AuthenticationFailed : JS.Error :=
  JS.MkError "AuthenticationFailed" "Authentication failed".

Module RedisPasswordBackend.

Section Backend.

(** [bcrypt.compare(secret, hash)], settled. *)
Variable bcrypt_compare : string -> string -> bool.

(** The string keys of the Redis database the instance is connected to; the
    connection is taken to be up, so that [get] answers. *)
Abbreviation Redis := (gmap string string).

Record t : Type := Make { _prefix : string }.

(** The constructor, for the [prefix] of the configuration: an omitted one
    is ['masterkey']. *)
Definition constructor (prefix : option string) : t :=
  Make (default "masterkey" prefix).

(** The key looked up: [`${this._prefix}:${subjectID}`] *)
Definition key (self : t) (subjectID : string) : string :=
  _prefix self +:+ ":" +:+ subjectID.

Definition authenticate (self : t) (subjectID secret : string) (w : World Redis) : (JS.Error + unit) * World Redis :=
  let data := store w !! key self subjectID in
  if negb (JS.truthy data) then (inl AuthenticationFailed, w)
  else
    let passwordMatches := bcrypt_compare secret (default "" data) in
    if negb passwordMatches then (inl AuthenticationFailed, w)
    else (inr tt, w).

(** The instance as the [TokenManager] sees it: it has no
    [requestChallenge]. *)
Definition backend (self : t) : Backend Redis :=
  MkBackend (authenticate self) None.

End Backend.

End RedisPasswordBackend.

(** ** More managers of the test suite *)

Module Scenarios.

(** A stand-in for [bcrypt]: the hash spells out the password. *)
Definition hashSync (password : string) : string := "$2b$12$" +:+ password.
Definition compare (secret hash : string) : bool := String.eqb hash (hashSync secret).

(** The manager of the [RedisPasswordBackend] test. *)
Definition redisManager : TokenManager.t (gmap string string) :=
  TokenManager.Make
    {[ "password" :=
         RedisPasswordBackend.backend compare
           (RedisPasswordBackend.constructor (Some "masterkeytest")) ]}
    [ "password" ] (TokenManager.MkTokenParameters "mode_column8really").

(** The database once the test has prepared the account. *)
Definition prepared : State (gmap string string) :=
  MkState (MkWorld 1000 {[ "masterkeytest:user1" := hashSync "sugar-Guilt-Rex" ]}) [].

(** The manager of the [requestChallenge] test: codes are the only step. *)
Definition codeOnly : TokenManager.t TestSuite.Store :=
  TokenManager.Make {[ "code" := TestSuite.CodeBackend ]} [ "code" ]
    (TokenManager.MkTokenParameters TestSuite.tokenKey).

(** A manager whose last step repeats the first. *)
Definition repeated : TokenManager.t TestSuite.Store :=
  TokenManager.Make {[ "password" := TestSuite.passwordBackend ]}
    [ "password"; "password" ] (TokenManager.MkTokenParameters TestSuite.tokenKey).

(** A manager without steps. *)
Definition stepless : TokenManager.t TestSuite.Store :=
  TokenManager.Make {[ "password" := TestSuite.passwordBackend ]} []
    (TokenManager.MkTokenParameters TestSuite.tokenKey).


(** A manager whose signing key is empty. *)
Definition keyless : TokenManager.t TestSuite.Store :=
  TokenManager.Make {[ "password" := TestSuite.passwordBackend ]} [ "password" ]
    (TokenManager.MkTokenParameters "").

End Scenarios.

(** * Properties *)

(** ** Arrays of method names *)

Lemma indexOf_from_bounds (l : list string) (x : string) (i : Z) :
  JS.indexOf_from l x i = -1 \/ (i <= JS.indexOf_from l x i < i + Z.of_nat (length l)).
Proof.
  revert i. induction l as [|y l IH]; intros i; simpl.
  - now left.
  - destruct (String.eqb y x).
    + right. lia.
    + destruct (IH (i + 1)) as [H|H]; [now left | right; lia].
Qed.

Lemma indexOf_from_lookup (l : list string) (x : string) (i : Z) :
  JS.indexOf_from l x i <> -1 ->
  l !! Z.to_nat (JS.indexOf_from l x i - i) = Some x.
Proof.
  revert i. induction l as [|y l IH]; intros i; simpl.
  - congruence.
  - destruct (String.eqb y x) eqn:E.
    + intros _. apply String.eqb_eq in E. subst y.
      replace (i - i) with 0 by lia. reflexivity.
    + intros H. specialize (IH (i + 1) H).
      destruct (indexOf_from_bounds l x (i + 1)) as [Hb|Hb]; [congruence|].
      replace (Z.to_nat (JS.indexOf_from l x (i + 1) - i))
        with (S (Z.to_nat (JS.indexOf_from l x (i + 1) - (i + 1)))) by lia.
      exact IH.
Qed.

Lemma indexOf_bounds (l : list string) (x : option string) :
  JS.indexOf l x = -1 \/ (0 <= JS.indexOf l x < Z.of_nat (length l)).
Proof.
  destruct x as [x|]; simpl; [|now left].
  destruct (indexOf_from_bounds l x 0); [now left | right; lia].
Qed.

(** A found index holds the value looked for. *)
Lemma indexOf_get (l : list string) (x : option string) :
  0 <= JS.indexOf l x -> JS.get l (JS.indexOf l x) = x.
Proof.
  destruct x as [x|]; simpl; [|lia].
  intros H. unfold JS.get.
  destruct (JS.indexOf_from l x 0 <? 0) eqn:E; [lia|].
  pose proof (indexOf_from_lookup l x 0) as L.
  rewrite Z.sub_0_r in L. apply L. lia.
Qed.

Lemma get_out_of_range (l : list string) (i : Z) :
  Z.of_nat (length l) <= i -> JS.get l i = None.
Proof.
  intros H. unfold JS.get. destruct (i <? 0); [reflexivity|].
  apply lookup_ge_None. lia.
Qed.

Lemma get_in_range (l : list string) (i : Z) :
  0 <= i < Z.of_nat (length l) -> exists x, JS.get l i = Some x.
Proof.
  intros H. unfold JS.get. destruct (i <? 0) eqn:E; [lia|].
  destruct (lookup_lt_is_Some_2 l (Z.to_nat i)) as [x Hx]; [lia|]. eauto.
Qed.

(** Index 0 is found exactly for the first entry. *)
Lemma indexOf_zero (l : list string) (x : string) :
  JS.indexOf l (Some x) = 0 <-> head l = Some x.
Proof.
  destruct l as [|y l]; simpl; [split; discriminate|].
  destruct (String.eqb y x) eqn:E.
  - apply String.eqb_eq in E. subst. tauto.
  - apply String.eqb_neq in E.
    destruct (indexOf_from_bounds l x (0 + 1)); split; intros; try lia; congruence.
Qed.

Lemma indexOf_from_found (l : list string) (n : nat) (x : string) (i : Z) :
  0 <= i -> l !! n = Some x -> JS.indexOf_from l x i <> -1.
Proof.
  revert n i. induction l as [|y l IH]; intros n i Hi Hn; simpl.
  - discriminate.
  - destruct (String.eqb y x) eqn:E; [lia|].
    apply String.eqb_neq in E.
    destruct n as [|n]; simpl in Hn; [congruence|].
    apply (IH n); [lia | exact Hn].
Qed.

(** In a sequence without repetition, every entry is found where it is. *)
Lemma indexOf_NoDup (l : list string) (n : nat) (x : string) :
  NoDup l -> l !! n = Some x -> JS.indexOf l (Some x) = Z.of_nat n.
Proof.
  intros Hnd Hn. simpl.
  pose proof (indexOf_from_found l n x 0 ltac:(lia) Hn) as Hf.
  destruct (indexOf_from_bounds l x 0) as [H|H]; [congruence|].
  pose proof (indexOf_from_lookup l x 0 Hf) as L.
  rewrite Z.sub_0_r in L.
  pose proof (NoDup_lookup l _ _ x Hnd L Hn). lia.
Qed.

(** Without repetition, the last entry is the one found at the last index. *)
Lemma last_indexOf (l : list string) (x : string) :
  NoDup l ->
  (last l = Some x <->
   0 <= JS.indexOf l (Some x) /\ JS.indexOf l (Some x) = Z.of_nat (length l) - 1).
Proof.
  intros Hnd. rewrite last_lookup. split.
  - intros H. destruct l as [|y l]; [discriminate|].
    rewrite (indexOf_NoDup _ _ _ Hnd H). simpl length. lia.
  - intros [H0 H].
    pose proof (indexOf_get l (Some x) H0) as G.
    rewrite H in G. unfold JS.get in G.
    destruct (Z.of_nat (length l) - 1 <? 0) eqn:E; [lia|].
    replace (Z.to_nat (Z.of_nat (length l) - 1)) with (pred (length l)) in G by lia.
    exact G.
Qed.

(** ** The transparent primitive is lawful *)

Lemma dec_enc_string (s r : string) :
  PlainToken.dec_string (PlainToken.enc_string s +:+ r) = Some (s, r).
Proof.
  induction s as [|a s IH]; simpl; [reflexivity|].
  now rewrite IH.
Qed.

Lemma dec_enc_positive (p : positive) (r : string) :
  PlainToken.dec_positive (PlainToken.enc_positive p +:+ r) = Some (p, r).
Proof.
  induction p as [p IH|p IH|]; simpl; try rewrite IH; reflexivity.
Qed.

Lemma dec_enc_Z (z : Z) (r : string) :
  PlainToken.dec_Z (PlainToken.enc_Z z +:+ r) = Some (z, r).
Proof.
  destruct z as [|p|p]; simpl; try rewrite dec_enc_positive; reflexivity.
Qed.

Lemma dec_enc_claims (c : JWT.Claims) (r : string) :
  PlainToken.dec_claims (PlainToken.enc_claims c +:+ r) = Some (c, r).
Proof.
  destruct c as [[m|] [|]]; simpl; try rewrite dec_enc_string; reflexivity.
Qed.

Lemma append_empty_r (u : string) : u +:+ "" = u.
Proof.
  induction u as [|a u IH]; [reflexivity|].
  change (String a (u +:+ "") = String a u). now rewrite IH.
Qed.

Lemma decode_encode (p : JWT.Payload) (k : string) :
  PlainToken.decode (PlainToken.encode p k) = Some (p, k).
Proof.
  unfold PlainToken.decode, PlainToken.encode.
  rewrite dec_enc_claims, dec_enc_string, !dec_enc_Z.
  rewrite <- (append_empty_r (PlainToken.enc_string k)).
  rewrite dec_enc_string. now destruct p.
Qed.

Lemma plain_verify_signed (c : JWT.Claims) (k s : string) (ttl t : Z) (tok s' : string) (t' : Z) :
  PlainToken.sign c k s ttl t = inr tok ->
  PlainToken.verify tok k s' t' =
    if t + ttl <=? t' then inl PlainToken.TokenExpiredError
    else if negb (String.eqb s s') then inl (PlainToken.JsonWebTokenError "jwt subject invalid")
    else inr (JWT.MkPayload c s t (t + ttl)).
Proof.
  unfold PlainToken.sign, PlainToken.verify.
  destruct (String.eqb k "") eqn:Ek; [discriminate|].
  intros [= <-]. rewrite decode_encode, String.eqb_refl. reflexivity.
Qed.

Lemma plain_lawful : JWT.Lawful PlainToken.primitive.
Proof.
  split; simpl.
  - intros c k s ttl t tok t' Hs Ht.
    rewrite (plain_verify_signed _ _ _ _ _ _ s t' Hs), String.eqb_refl.
    destruct (t + ttl <=? t') eqn:E; [lia | reflexivity].
  - intros c k s ttl t tok s' t' p Hs Hv.
    rewrite (plain_verify_signed _ _ _ _ _ _ s' t' Hs) in Hv.
    destruct (t + ttl <=? t'); [discriminate|].
    destruct (negb (String.eqb s s')); [discriminate|].
    now injection Hv as <-.
  - intros k s t p. unfold PlainToken.verify. simpl. discriminate.
Qed.

(** ** Method resolution *)

Section Resolution.

Context {Store : Type}.
Variable P : JWT.Primitive.
Variable self : TokenManager.t Store.

Local Abbreviation steps := (TokenManager._authSteps self).
Local Abbreviation key := (TokenManager.key (TokenManager._tokenParameters self)).
Local Abbreviation resolution := (TokenManager._verifyPreviousToken P self).
Local Abbreviation getToken := (TokenManager.getToken P self).
Local Abbreviation challenge := (TokenManager.requestChallenge P self).

(** Without a previous token nothing is verified: the method, defaulted to
    the first step, has to be found at index 0. *)
Lemma resolution_absent previousToken subjectID method (s : State Store) :
  JS.truthy previousToken = false ->
  resolution previousToken subjectID method s =
    (let method := if JS.truthy method then method else JS.get steps 0 in
     if JS.indexOf steps method =? 0
     then inr (TokenManager.MkVerificationResult None method)
     else inl TokenManager.err_method, s).
Proof.
  intros H. unfold TokenManager._verifyPreviousToken, then_, resolve, reject.
  rewrite H. simpl.
  destruct (JS.truthy method); simpl; destruct (JS.indexOf steps _ =? 0); reflexivity.
Qed.

(** With a previous token, the token is verified first and the checks are
    made on its claims. *)
Lemma resolution_present tok subjectID method (s : State Store) :
  JS.truthy (Some tok) = true ->
  resolution (Some tok) subjectID method s =
    (match JWT.verify P tok key subjectID (now (world s)) with
     | inl e => inl e
     | inr p =>
         if JWT.final (JWT.claims p) then inl TokenManager.err_final
         else
           let i := JS.indexOf steps (JWT.from (JWT.claims p)) in
           if i <? 0 then inl TokenManager.err_previous_step
           else
             let method := if JS.truthy method then method else JS.get steps (i + 1) in
             if JS.indexOf steps method =? i + 1
             then inr (TokenManager.MkVerificationResult (Some p) method)
             else inl TokenManager.err_method
     end, record (EvVerify tok subjectID) s).
Proof.
  intros H. unfold TokenManager._verifyPreviousToken, then_, resolve, reject, TokenManager.call_verify.
  rewrite H. simpl.
  destruct (JWT.verify P tok key subjectID (now (world s))) as [e|p]; [reflexivity|].
  destruct (JWT.final (JWT.claims p)); [reflexivity|].
  destruct (JS.indexOf steps (JWT.from (JWT.claims p)) <? 0) eqn:Ei; [reflexivity|].
  destruct (JS.truthy method); simpl;
    match goal with |- context [JS.indexOf steps ?m =? ?j] =>
      destruct (JS.indexOf steps m =? j) eqn:E;
      destruct (JS.indexOf steps m <? 0) eqn:E' end;
    simpl; try reflexivity; lia.
Qed.

(** A token that verifies is not the empty string, hence truthy. *)
Lemma verified_truthy tok subjectID t p :
  JWT.Lawful P -> JWT.verify P tok key subjectID t = inr p -> JS.truthy (Some tok) = true.
Proof.
  intros HP Hv. simpl. destruct (String.eqb tok "") eqn:E; [|reflexivity].
  apply String.eqb_eq in E. subst tok. now apply JWT.verify_empty in Hv.
Qed.

(** Resolution leaves the world alone and calls nothing but the verifier. *)
Lemma resolution_state previousToken subjectID method (s : State Store) :
  snd (resolution previousToken subjectID method s) =
    if JS.truthy previousToken
    then record (EvVerify (default "" previousToken) subjectID) s
    else s.
Proof.
  destruct (JS.truthy previousToken) eqn:H.
  - destruct previousToken as [tok|]; [|discriminate].
    now rewrite resolution_present.
  - now rewrite resolution_absent.
Qed.

(** A rejected resolution rejects both operations, in the same state. *)
Lemma getToken_rejected previousToken subjectID secret method (s : State Store) e :
  fst (resolution previousToken subjectID method s) = inl e ->
  getToken previousToken subjectID secret method s =
    (inl e, snd (resolution previousToken subjectID method s)).
Proof.
  unfold TokenManager.getToken, then_.
  destruct (resolution previousToken subjectID method s) as [[e'|vr] s1]; simpl; congruence.
Qed.

Lemma requestChallenge_rejected previousToken subjectID method (s : State Store) e :
  fst (resolution previousToken subjectID method s) = inl e ->
  challenge subjectID previousToken method s =
    (inl e, snd (resolution previousToken subjectID method s)).
Proof.
  unfold TokenManager.requestChallenge, then_.
  destruct (resolution previousToken subjectID method s) as [[e'|vr] s1]; simpl; congruence.
Qed.

(** C2. A previous token that verifies with the claim [final = true] makes
    resolution fail, whatever method is requested: [_verifyPreviousToken],
    [getToken] and [requestChallenge] all reject with the final-token
    error. *)
Theorem final_token_grants_no_step tok subjectID method (s : State Store) p :
  JWT.Lawful P ->
  JWT.verify P tok key subjectID (now (world s)) = inr p ->
  JWT.final (JWT.claims p) = true ->
  fst (resolution (Some tok) subjectID method s) = inl TokenManager.err_final
  /\ (forall secret, fst (getToken (Some tok) subjectID secret method s) = inl TokenManager.err_final)
  /\ fst (challenge subjectID (Some tok) method s) = inl TokenManager.err_final.
Proof.
  intros HP Hv Hf.
  assert (R : fst (resolution (Some tok) subjectID method s) = inl TokenManager.err_final).
  { rewrite resolution_present by eauto using verified_truthy.
    simpl. now rewrite Hv, Hf. }
  split; [exact R|]. split.
  - intros secret. now rewrite (getToken_rejected _ _ _ _ _ _ R).
  - now rewrite (requestChallenge_rejected _ _ _ _ _ R).
Qed.

(** What a fulfilled resolution tells: the method it settles on is a
    configured step, the first one without a previous token, and otherwise
    the one right after the step a verified, non-final token comes from. *)
Lemma resolution_fulfilled previousToken subjectID method (s : State Store) vr s1 :
  resolution previousToken subjectID method s = (inr vr, s1) ->
  0 <= JS.indexOf steps (TokenManager.method vr)
  /\ ((JS.truthy previousToken = false /\ s1 = s
       /\ TokenManager.payload vr = None
       /\ JS.indexOf steps (TokenManager.method vr) = 0)
      \/ (exists tok p,
            previousToken = Some tok /\ tok <> ""
            /\ s1 = record (EvVerify tok subjectID) s
            /\ JWT.verify P tok key subjectID (now (world s)) = inr p
            /\ TokenManager.payload vr = Some p
            /\ JWT.final (JWT.claims p) = false
            /\ 0 <= JS.indexOf steps (JWT.from (JWT.claims p))
            /\ JS.indexOf steps (TokenManager.method vr)
               = JS.indexOf steps (JWT.from (JWT.claims p)) + 1)).
Proof.
  destruct (JS.truthy previousToken) eqn:T.
  - destruct previousToken as [tok|]; [|discriminate].
    rewrite resolution_present by exact T. cbv zeta.
    destruct (JWT.verify P tok key subjectID (now (world s))) as [e|p] eqn:V;
      [intros H; discriminate H|].
    destruct (JWT.final (JWT.claims p)) eqn:F; [intros H; discriminate H|].
    destruct (JS.indexOf steps (JWT.from (JWT.claims p)) <? 0) eqn:I;
      [intros H; discriminate H|].
    destruct (JS.indexOf steps _ =? _) eqn:E; [|intros H; discriminate H].
    intros [= <- <-]. simpl TokenManager.method. simpl TokenManager.payload.
    split; [lia|]. right. exists tok, p.
    repeat split; try reflexivity; try assumption; try lia.
    simpl in T. intros ->. discriminate.
  - rewrite resolution_absent by exact T. cbv zeta.
    destruct (JS.indexOf steps _ =? 0) eqn:E; [|intros H; discriminate H].
    intros [= <- <-]. simpl TokenManager.method.
    split; [lia|]. left. repeat split; try reflexivity. lia.
Qed.

(** C1, as the code has it.  After a verified, non-final token whose [from]
    claim is found at index [i], an explicit method, that is a non-empty
    name, found anywhere but at index [i + 1] (further on, further back, at
    [i] itself, or nowhere) makes [_verifyPreviousToken], [getToken] and
    [requestChallenge] reject with the sequencing error.  An unspecified
    method, that is an absent, null or empty one, is replaced by the entry
    at index [i + 1], which is then subject to the same check. *)
Theorem explicit_method_must_be_next tok subjectID (s : State Store) p i :
  JWT.Lawful P ->
  JWT.verify P tok key subjectID (now (world s)) = inr p ->
  JWT.final (JWT.claims p) = false ->
  JS.indexOf steps (JWT.from (JWT.claims p)) = i ->
  0 <= i ->
  (forall m, m <> "" -> JS.indexOf steps (Some m) <> i + 1 ->
     fst (resolution (Some tok) subjectID (Some m) s) = inl TokenManager.err_method
     /\ (forall secret,
           fst (getToken (Some tok) subjectID secret (Some m) s) = inl TokenManager.err_method)
     /\ fst (challenge subjectID (Some tok) (Some m) s) = inl TokenManager.err_method)
  /\ (forall method, JS.truthy method = false ->
       fst (resolution (Some tok) subjectID method s) =
         if JS.indexOf steps (JS.get steps (i + 1)) =? i + 1
         then inr (TokenManager.MkVerificationResult (Some p) (JS.get steps (i + 1)))
         else inl TokenManager.err_method).
Proof.
  intros HP Hv Hf Hi H0.
  pose proof (verified_truthy _ _ _ _ HP Hv) as T.
  split.
  - intros m Hm Hidx.
    assert (R : fst (resolution (Some tok) subjectID (Some m) s) = inl TokenManager.err_method).
    { rewrite resolution_present by exact T. cbn [fst]. rewrite Hv, Hf, Hi.
      destruct (i <? 0) eqn:E; [lia|]. cbv zeta.
      assert (Tm : JS.truthy (Some m) = true).
      { simpl. apply negb_true_iff. now apply String.eqb_neq. }
      rewrite Tm.
      destruct (JS.indexOf steps (Some m) =? i + 1) eqn:E'; [lia | reflexivity]. }
    split; [exact R|]. split.
    + intros secret. now rewrite (getToken_rejected _ _ _ _ _ _ R).
    + now rewrite (requestChallenge_rejected _ _ _ _ _ R).
  - intros method Hm.
    rewrite resolution_present by exact T. cbn [fst]. rewrite Hv, Hf, Hi, Hm.
    destruct (i <? 0) eqn:E; [lia | reflexivity].
Qed.

(** After the step found at the last index no default exists. *)
Lemma resolution_after_last_index tok subjectID method (s : State Store) p :
  JS.truthy (Some tok) = true ->
  JWT.verify P tok key subjectID (now (world s)) = inr p ->
  JWT.final (JWT.claims p) = false ->
  0 <= JS.indexOf steps (JWT.from (JWT.claims p)) ->
  JS.indexOf steps (JWT.from (JWT.claims p)) = Z.of_nat (length steps) - 1 ->
  JS.truthy method = false ->
  fst (resolution (Some tok) subjectID method s) = inl TokenManager.err_method.
Proof.
  intros T Hv Hf H0 Hi Hm.
  rewrite resolution_present by exact T. cbn [fst]. rewrite Hv, Hf, Hm.
  destruct (JS.indexOf steps (JWT.from (JWT.claims p)) <? 0) eqn:E; [lia|]. cbv zeta.
  rewrite Hi, get_out_of_range by lia. simpl JS.indexOf.
  destruct (-1 =? Z.of_nat (length steps) - 1 + 1) eqn:E'; [lia | reflexivity].
Qed.

(** C9. A verified, non-final previous token whose [from] claim is the last
    entry of the sequence, presented without a method, is rejected: the
    successor that would be the default does not exist.  The sequence is one
    of unique names, as the data model has it. *)
Theorem no_default_after_last_step tok subjectID method (s : State Store) p f :
  JWT.Lawful P ->
  NoDup steps ->
  JWT.verify P tok key subjectID (now (world s)) = inr p ->
  JWT.final (JWT.claims p) = false ->
  JWT.from (JWT.claims p) = Some f ->
  last steps = Some f ->
  JS.truthy method = false ->
  fst (resolution (Some tok) subjectID method s) = inl TokenManager.err_method
  /\ (forall secret,
        fst (getToken (Some tok) subjectID secret method s) = inl TokenManager.err_method)
  /\ fst (challenge subjectID (Some tok) method s) = inl TokenManager.err_method.
Proof.
  intros HP Hnd Hv Hf Hfrom Hlast Hm.
  apply (last_indexOf _ _ Hnd) in Hlast as [H0 Hi]. rewrite <- Hfrom in H0, Hi.
  assert (R : fst (resolution (Some tok) subjectID method s) = inl TokenManager.err_method)
    by eauto using resolution_after_last_index, verified_truthy.
  split; [exact R|]. split.
  - intros secret. now rewrite (getToken_rejected _ _ _ _ _ _ R).
  - now rewrite (requestChallenge_rejected _ _ _ _ _ R).
Qed.

(** C5, as the code has it.  In a [getToken] call without a previous token
    (absent, null or empty), an unspecified method (absent, null or empty)
    resolves to the first entry of the sequence, and an explicit method,
    that is a non-empty name, other than the first entry makes the call
    reject with the sequencing error, in the state it started from. *)
Theorem first_step_cannot_be_chosen previousToken subjectID secret (s : State Store) :
  JS.truthy previousToken = false ->
  (forall method, JS.truthy method = false ->
     fst (resolution previousToken subjectID method s) =
       match head steps with
       | Some first => inr (TokenManager.MkVerificationResult None (Some first))
       | None => inl TokenManager.err_method
       end)
  /\ (forall m, m <> "" -> head steps <> Some m ->
       getToken previousToken subjectID secret (Some m) s = (inl TokenManager.err_method, s)).
Proof.
  intros T. split.
  - intros method Hm. rewrite resolution_absent by exact T. cbn [fst]. rewrite Hm.
    unfold JS.get. simpl. rewrite <- head_lookup.
    destruct (head steps) as [first|] eqn:Hh; [|reflexivity].
    apply indexOf_zero in Hh. now rewrite Hh.
  - intros m Hm Hh.
    assert (Tm : JS.truthy (Some m) = true).
    { simpl. apply negb_true_iff. now apply String.eqb_neq. }
    assert (R : resolution previousToken subjectID (Some m) s = (inl TokenManager.err_method, s)).
    { rewrite resolution_absent by exact T. rewrite Tm. cbv zeta.
      destruct (JS.indexOf steps (Some m) =? 0) eqn:E; [|reflexivity].
      exfalso. apply Hh, indexOf_zero. lia. }
    rewrite (getToken_rejected _ _ _ _ _ TokenManager.err_method); now rewrite R.
Qed.

(** ** Token issuance and challenge requests *)

(** [getToken] once the method is resolved: the back-end is asked, then the
    token is signed, then the result object is built. *)
Lemma getToken_resolved previousToken subjectID secret method (s : State Store) vr s1 :
  resolution previousToken subjectID method s = (inr vr, s1) ->
  getToken previousToken subjectID secret method s =
    let m := TokenManager.method vr in
    let i := JS.indexOf steps m in
    let final := i =? Z.of_nat (length steps) - 1 in
    match TokenManager.property (TokenManager._authBackends self) m with
    | None => (inl (JS.TypeError "Cannot read property 'authenticate' of undefined"), s1)
    | Some backend =>
        let s2 w := MkState w (log s1 ++ [EvAuthenticate (JS.ToString (JS.of_option m)) subjectID secret]) in
        match authenticate backend subjectID secret (world s1) with
        | (inl e, w) => (inl e, s2 w)
        | (inr _, w) =>
            let claims := JWT.MkClaims m final in
            match JWT.sign P claims key subjectID JWT.expiresIn (now w) with
            | inl e => (inl e, record (EvSign claims subjectID) (s2 w))
            | inr token =>
                (AuthResult.constructor
                   (AuthResult.Args (JS.Str token) (JS.Bool final)
                      (if final then JS.Null
                       else JS.Arr [JS.of_option (JS.get steps (i + 1))])),
                 record (EvSign claims subjectID) (s2 w))
            end
        end
    end.
Proof.
  intros R. unfold TokenManager.getToken, then_. rewrite R.
  destruct vr as [pl m]. cbn [TokenManager.method]. cbv zeta.
  unfold TokenManager._getTokenForSecret, then_, reject.
  destruct (TokenManager.property (TokenManager._authBackends self) m) as [backend|];
    [|reflexivity].
  unfold TokenManager.call_authenticate, TokenManager.call_sign.
  destruct (authenticate backend subjectID secret (world s1)) as [[e|[]] w]; [reflexivity|].
  cbn [world log].
  destruct (JWT.sign P _ key subjectID JWT.expiresIn (now w)); reflexivity.
Qed.

(** [requestChallenge] once the method is resolved. *)
Lemma requestChallenge_resolved previousToken subjectID method (s : State Store) vr s1 :
  resolution previousToken subjectID method s = (inr vr, s1) ->
  challenge subjectID previousToken method s =
    let m := TokenManager.method vr in
    match TokenManager.property (TokenManager._authBackends self) m with
    | None => (inl (JS.TypeError "Cannot read property 'requestChallenge' of undefined"), s1)
    | Some backend =>
        match requestChallenge backend with
        | None => (inl (JS.TypeError "backends[chosenMethod].requestChallenge is not a function"), s1)
        | Some f =>
            let '(r, w) := f subjectID (world s1) in
            (r, MkState w (log s1 ++ [EvRequestChallenge (JS.ToString (JS.of_option m)) subjectID]))
        end
    end.
Proof.
  intros R. unfold TokenManager.requestChallenge, then_. rewrite R.
  destruct vr as [pl m]. cbn [TokenManager.method]. cbv zeta.
  destruct (TokenManager.property (TokenManager._authBackends self) m) as [backend|];
    [|reflexivity].
  unfold TokenManager.call_requestChallenge, reject.
  destruct (requestChallenge backend); reflexivity.
Qed.

Lemma resolution_log previousToken subjectID method (s : State Store) :
  snd (resolution previousToken subjectID method s) =
    MkState (world s) (log s ++ TokenManager.resolution_events previousToken subjectID).
Proof.
  rewrite resolution_state. unfold TokenManager.resolution_events, record.
  destruct (JS.truthy previousToken); [reflexivity|].
  rewrite app_nil_r. now destruct s.
Qed.

Lemma resolution_events_quiet previousToken subjectID :
  existsb is_backend_event (TokenManager.resolution_events previousToken subjectID) = false
  /\ existsb is_sign_event (TokenManager.resolution_events previousToken subjectID) = false.
Proof.
  unfold TokenManager.resolution_events. destruct (JS.truthy previousToken); split; reflexivity.
Qed.

(** Both operations only ever add to the log what comes after resolution. *)
Lemma getToken_log previousToken subjectID secret method (s : State Store) :
  exists rest,
    log (snd (getToken previousToken subjectID secret method s)) =
      log (snd (resolution previousToken subjectID method s)) ++ rest.
Proof.
  destruct (resolution previousToken subjectID method s) as [[e|vr] s1] eqn:R.
  - rewrite (getToken_rejected _ _ _ _ _ e) by now rewrite R.
    rewrite R. exists []. now rewrite app_nil_r.
  - rewrite (getToken_resolved _ _ _ _ _ _ _ R). cbv zeta. cbn [snd].
    destruct (TokenManager.property _ _) as [backend|];
      [|exists []; now rewrite app_nil_r].
    destruct (authenticate backend subjectID secret (world s1)) as [[e|[]] w];
      [eexists; reflexivity|].
    destruct (JWT.sign P _ key subjectID JWT.expiresIn (now w));
      cbn [snd record log]; rewrite <- app_assoc; eexists; reflexivity.
Qed.

Lemma requestChallenge_log previousToken subjectID method (s : State Store) :
  exists rest,
    log (snd (challenge subjectID previousToken method s)) =
      log (snd (resolution previousToken subjectID method s)) ++ rest.
Proof.
  destruct (resolution previousToken subjectID method s) as [[e|vr] s1] eqn:R.
  - rewrite (requestChallenge_rejected _ _ _ _ e) by now rewrite R.
    rewrite R. exists []. now rewrite app_nil_r.
  - rewrite (requestChallenge_resolved _ _ _ _ _ _ R). cbv zeta. cbn [snd].
    destruct (TokenManager.property _ _) as [backend|];
      [|exists []; now rewrite app_nil_r].
    destruct (requestChallenge backend) as [f|]; [|exists []; now rewrite app_nil_r].
    destruct (f subjectID (world s1)) as [r w]. eexists; reflexivity.
Qed.

(** C8. Resolution adds to the log at most the call to the verifier and
    leaves the world as it was; whatever [getToken] and [requestChallenge]
    do comes after it in the log; and when resolution is rejected both
    calls are rejected with the same reason in that very state, no back-end
    having been called. *)
Theorem resolution_precedes_backends previousToken subjectID secret method (s : State Store) :
  let evs := TokenManager.resolution_events previousToken subjectID in
  snd (resolution previousToken subjectID method s) = MkState (world s) (log s ++ evs)
  /\ existsb is_backend_event evs = false
  /\ (exists rest,
        log (snd (getToken previousToken subjectID secret method s)) = log s ++ evs ++ rest)
  /\ (exists rest,
        log (snd (challenge subjectID previousToken method s)) = log s ++ evs ++ rest)
  /\ (forall e, fst (resolution previousToken subjectID method s) = inl e ->
        getToken previousToken subjectID secret method s
          = (inl e, MkState (world s) (log s ++ evs))
        /\ challenge subjectID previousToken method s
          = (inl e, MkState (world s) (log s ++ evs))).
Proof.
  intros evs. subst evs.
  pose proof (resolution_log previousToken subjectID method s) as L.
  split; [exact L|]. split; [apply resolution_events_quiet|].
  split; [|split].
  - destruct (getToken_log previousToken subjectID secret method s) as [rest Hr].
    exists rest. rewrite Hr, L. cbn [log]. now rewrite app_assoc.
  - destruct (requestChallenge_log previousToken subjectID method s) as [rest Hr].
    exists rest. rewrite Hr, L. cbn [log]. now rewrite app_assoc.
  - intros e He. rewrite <- L. split.
    + now apply getToken_rejected.
    + now apply requestChallenge_rejected.
Qed.

(** C7. When the back-end of the resolved method rejects, [getToken]
    rejects with the very same reason; the log ends with the call to the
    back-end and holds no call to the signer, and the world is the one the
    back-end left. *)
Theorem backend_rejection_propagates previousToken subjectID secret method (s : State Store)
    vr s1 backend e w :
  resolution previousToken subjectID method s = (inr vr, s1) ->
  TokenManager.property (TokenManager._authBackends self) (TokenManager.method vr) = Some backend ->
  authenticate backend subjectID secret (world s1) = (inl e, w) ->
  let call := EvAuthenticate (JS.ToString (JS.of_option (TokenManager.method vr))) subjectID secret in
  let added := TokenManager.resolution_events previousToken subjectID ++ [call] in
  getToken previousToken subjectID secret method s = (inl e, MkState w (log s ++ added))
  /\ existsb is_sign_event added = false.
Proof.
  intros R Hb Ha call added. subst call added.
  rewrite (getToken_resolved _ _ _ _ _ _ _ R). cbv zeta. rewrite Hb, Ha.
  pose proof (resolution_log previousToken subjectID method s) as L.
  rewrite R in L. cbn [snd] in L. subst s1. cbn [log].
  split; [now rewrite app_assoc|].
  rewrite existsb_app. destruct (resolution_events_quiet previousToken subjectID) as [_ ->].
  reflexivity.
Qed.

(** C10. When the back-end of the resolved method has no [requestChallenge],
    the call is rejected with a type error, in the state resolution left. *)
Theorem missing_capability_is_rejected previousToken subjectID method (s : State Store)
    vr s1 backend :
  resolution previousToken subjectID method s = (inr vr, s1) ->
  TokenManager.property (TokenManager._authBackends self) (TokenManager.method vr) = Some backend ->
  requestChallenge backend = None ->
  challenge subjectID previousToken method s =
    (inl (JS.TypeError "backends[chosenMethod].requestChallenge is not a function"), s1).
Proof.
  intros R Hb Hc.
  rewrite (requestChallenge_resolved _ _ _ _ _ _ R). cbv zeta. now rewrite Hb, Hc.
Qed.

(** ** Fulfilled calls *)

(** The result object [getToken] builds is refused only for an empty token. *)
Lemma constructor_of_getToken (token : string) (final : bool) (next : JS.Value) :
  AuthResult.constructor
    (AuthResult.Args (JS.Str token) (JS.Bool final) (if final then JS.Null else JS.Arr [next]))
  = if String.eqb token "" then inl AuthResult.invalid
    else inr (AuthResult.Make token final (if final then JS.Null else JS.Arr [next])).
Proof.
  unfold AuthResult.constructor. simpl.
  destruct (String.eqb token ""), final; reflexivity.
Qed.

(** What a fulfilled [getToken] went through. *)
Lemma getToken_fulfilled previousToken subjectID secret method (s : State Store) r s' :
  getToken previousToken subjectID secret method s = (inr r, s') ->
  exists vr s1 m backend,
    resolution previousToken subjectID method s = (inr vr, s1)
    /\ TokenManager.method vr = Some m
    /\ 0 <= JS.indexOf steps (Some m) < Z.of_nat (length steps)
    /\ TokenManager.property (TokenManager._authBackends self) (Some m) = Some backend
    /\ authenticate backend subjectID secret (world s1) = (inr tt, world s')
    /\ JWT.sign P (JWT.MkClaims (Some m) (AuthResult.final r)) key subjectID JWT.expiresIn
         (now (world s')) = inr (AuthResult.token r)
    /\ AuthResult.token r <> ""
    /\ AuthResult.final r = (JS.indexOf steps (Some m) =? Z.of_nat (length steps) - 1)
    /\ AuthResult.next r =
         (if AuthResult.final r then JS.Null
          else JS.Arr [JS.of_option (JS.get steps (JS.indexOf steps (Some m) + 1))]).
Proof.
  destruct (resolution previousToken subjectID method s) as [[e|vr] s1] eqn:R.
  - rewrite (getToken_rejected _ _ _ _ _ e) by now rewrite R.
    intros H; discriminate H.
  - rewrite (getToken_resolved _ _ _ _ _ _ _ R). cbv zeta.
    destruct (resolution_fulfilled _ _ _ _ _ _ R) as [H0 _].
    destruct (TokenManager.method vr) as [m|] eqn:Hm; [|simpl in H0; lia].
    destruct (TokenManager.property _ _) as [backend|] eqn:Hb; [|intros H; discriminate H].
    destruct (authenticate backend subjectID secret (world s1)) as [[e|[]] w] eqn:Ha;
      [intros H; discriminate H|].
    destruct (JWT.sign P _ key subjectID JWT.expiresIn (now w)) as [e|token] eqn:Hs;
      [intros H; discriminate H|].
    rewrite constructor_of_getToken.
    destruct (String.eqb token "") eqn:Et; [intros H; discriminate H|].
    intros [= <- <-]. cbn [AuthResult.token AuthResult.final AuthResult.next world record].
    exists vr, s1, m, backend.
    destruct (indexOf_bounds steps (Some m)) as [Hbd|Hbd]; [lia|].
    repeat split; try reflexivity; try assumption; try lia.
    now apply String.eqb_neq.
Qed.

(** Every result of a chain of [n] calls carries a token signed for the
    step found at index [n - 1]. *)
Lemma chain_position (n : nat) (r : AuthResult.t) :
  JWT.Lawful P ->
  TokenManager.Chain P self n r ->
  exists m subjectID t,
    JWT.sign P (JWT.MkClaims (Some m) (AuthResult.final r)) key subjectID JWT.expiresIn t
      = inr (AuthResult.token r)
    /\ AuthResult.token r <> ""
    /\ JS.indexOf steps (Some m) = Z.of_nat n - 1
    /\ 0 <= JS.indexOf steps (Some m) < Z.of_nat (length steps)
    /\ AuthResult.final r = (JS.indexOf steps (Some m) =? Z.of_nat (length steps) - 1).
Proof.
  intros HP. induction 1 as [previousToken subjectID secret method s r s' T G
                            |n prev subjectID secret method s r s' C IH G].
  - destruct (getToken_fulfilled _ _ _ _ _ _ _ G)
      as (vr & s1 & m & backend & R & Hm & Hb & _ & _ & Hs & Ht & Hf & _).
    exists m, subjectID, (now (world s')).
    destruct (resolution_fulfilled _ _ _ _ _ _ R) as [_ [(_ & _ & _ & Hi)|(tok & p & -> & Hne & _)]].
    + rewrite Hm in Hi. repeat split; try assumption; lia.
    + simpl in T. apply negb_false_iff, String.eqb_eq in T. contradiction.
  - destruct IH as (m0 & sub0 & t0 & Hs0 & Ht0 & Hi0 & Hb0 & Hf0).
    destruct (getToken_fulfilled _ _ _ _ _ _ _ G)
      as (vr & s1 & m & backend & R & Hm & Hb & _ & _ & Hs & Ht & Hf & _).
    exists m, subjectID, (now (world s')).
    destruct (resolution_fulfilled _ _ _ _ _ _ R)
      as [_ [(T & _)|(tok & p & [= <-] & _ & _ & Hv & _ & _ & _ & Hi)]].
    + simpl in T. apply negb_false_iff, String.eqb_eq in T. contradiction.
    + rewrite (JWT.verify_claims P HP _ _ _ _ _ _ _ _ _ Hs0 Hv) in Hi.
      cbn [JWT.from] in Hi. rewrite Hm in Hi.
      repeat split; try assumption; lia.
Qed.

(** C3. A fulfilled [getToken] yields [final = true] exactly when the
    resolved method is found at the last index of the sequence, that is,
    in a sequence of unique names, when it is the last entry; [next] is
    null when final and otherwise the one-element list holding the entry
    right after the resolved method.  Hence in a chain of [n] fulfilled
    calls, each supplying the token of the call before it, the result is
    final exactly when [n] is the number of configured steps, and no chain
    is longer than that. *)
Theorem getToken_progress :
  JWT.Lawful P ->
  (forall previousToken subjectID secret method (s : State Store) r s',
     getToken previousToken subjectID secret method s = (inr r, s') ->
     exists vr m,
       fst (resolution previousToken subjectID method s) = inr vr
       /\ TokenManager.method vr = Some m
       /\ (AuthResult.final r = true <->
             JS.indexOf steps (Some m) = Z.of_nat (length steps) - 1)
       /\ (NoDup steps -> (AuthResult.final r = true <-> last steps = Some m))
       /\ (AuthResult.final r = true -> AuthResult.next r = JS.Null)
       /\ (AuthResult.final r = false ->
             exists m', JS.get steps (JS.indexOf steps (Some m) + 1) = Some m'
                        /\ AuthResult.next r = JS.Arr [JS.Str m']))
  /\ (forall n r,
       TokenManager.Chain P self n r ->
       (1 <= n <= length steps)%nat
       /\ (AuthResult.final r = true <-> n = length steps)).
Proof.
  intros HP. split.
  - intros previousToken subjectID secret method s r s' G.
    destruct (getToken_fulfilled _ _ _ _ _ _ _ G)
      as (vr & s1 & m & backend & R & Hm & Hb & _ & _ & _ & _ & Hf & Hn).
    exists vr, m. rewrite R. split; [reflexivity|]. split; [exact Hm|].
    assert (F : AuthResult.final r = true <->
                JS.indexOf steps (Some m) = Z.of_nat (length steps) - 1).
    { rewrite Hf. apply Z.eqb_eq. }
    split; [exact F|]. split; [|split].
    + intros Hnd. rewrite F, (last_indexOf _ _ Hnd). intuition lia.
    + intros Ht. now rewrite Ht in Hn.
    + intros Ht. rewrite Ht in Hn.
      destruct (get_in_range steps (JS.indexOf steps (Some m) + 1)) as [m' Hm'].
      { rewrite Ht in Hf. symmetry in Hf. apply Z.eqb_neq in Hf. lia. }
      exists m'. split; [exact Hm'|]. now rewrite Hn, Hm'.
  - intros n r C.
    destruct (chain_position n r HP C) as (m & sub0 & t0 & _ & _ & Hi & Hb & Hf).
    split; [lia|]. rewrite Hf, Z.eqb_eq. lia.
Qed.

(** C6. The token of a fulfilled [getToken] call verifies, under the same
    key and subject and at any time before eight hours have passed since
    the back-end answered, to claims with [from] the resolved method,
    [final] the finality reported in the result and [sub] the subject; and
    whenever it verifies at all, [from] and [final] are those. *)
Theorem minted_token_round_trip previousToken subjectID secret method (s : State Store) r s' :
  JWT.Lawful P ->
  getToken previousToken subjectID secret method s = (inr r, s') ->
  exists vr m,
    fst (resolution previousToken subjectID method s) = inr vr
    /\ TokenManager.method vr = Some m
    /\ AuthResult.final r = (JS.indexOf steps (Some m) =? Z.of_nat (length steps) - 1)
    /\ (forall t, t < now (world s') + JWT.expiresIn ->
         exists p,
           JWT.verify P (AuthResult.token r) key subjectID t = inr p
           /\ JWT.from (JWT.claims p) = Some m
           /\ JWT.final (JWT.claims p) = AuthResult.final r
           /\ JWT.sub p = subjectID)
    /\ (forall subject t p,
         JWT.verify P (AuthResult.token r) key subject t = inr p ->
         JWT.from (JWT.claims p) = Some m /\ JWT.final (JWT.claims p) = AuthResult.final r).
Proof.
  intros HP G.
  destruct (getToken_fulfilled _ _ _ _ _ _ _ G)
    as (vr & s1 & m & backend & R & Hm & _ & _ & _ & Hs & _ & Hf & _).
  exists vr, m. rewrite R.
  split; [reflexivity|]. split; [exact Hm|]. split; [exact Hf|]. split.
  - intros t Ht. eexists. split.
    + exact (JWT.verify_sign P HP _ _ _ _ _ _ t Hs Ht).
    + repeat split; reflexivity.
  - intros subject t p Hv.
    now rewrite (JWT.verify_claims P HP _ _ _ _ _ _ _ _ _ Hs Hv).
Qed.

End Resolution.

(** ** The result object *)

(** C4, as the code has it.  The constructor succeeds exactly when the
    string form of [token] is not empty and either [final] holds or [next]
    is a non-empty list; it then stores the coerced [token] and [final] and
    the given [next] as they are.  Nothing is asked of [next] when [final]
    holds.  Every failure is the one invalid-data error. *)
Theorem constructor_succeeds_iff (a : AuthResult.args) :
  let token := JS.ToString (AuthResult.arg_token a) in
  let final := JS.ToBoolean (JS.default (JS.Bool true) (AuthResult.arg_final a)) in
  let next := JS.default JS.Null (AuthResult.arg_next a) in
  ((exists r, AuthResult.constructor a = inr r) <->
   token <> "" /\ (final = true \/ exists x l, next = JS.Arr (x :: l)))
  /\ (forall r, AuthResult.constructor a = inr r -> r = AuthResult.Make token final next)
  /\ (forall e, AuthResult.constructor a = inl e -> e = AuthResult.invalid).
Proof.
  intros token final next. unfold AuthResult.constructor.
  fold token. fold next. fold final. simpl JS.truthy.
  destruct (String.eqb token "") eqn:Et;
    [apply String.eqb_eq in Et | apply String.eqb_neq in Et];
    destruct final; destruct next as [| |b|u|[|x l]]; simpl; rewrite ?orb_true_r;
    (split; [split; [intros [r H] | intros [Ht [H|(x' & l' & H)]]] | split; intros r H]);
    try discriminate H; try contradiction;
    try (injection H as <-; reflexivity);
    eauto 6.
Qed.

(** C4 as stated does not hold: a final result with a next step is built. *)
Lemma final_result_with_next_is_built :
  AuthResult.constructor
    (AuthResult.Args (JS.Str "t") (JS.Bool true) (JS.Arr [JS.Str "date"]))
  = inr (AuthResult.Make "t" true (JS.Arr [JS.Str "date"])).
Proof. reflexivity. Qed.

(** ** The scenarios of the test suite *)

(** C1 as stated does not hold for the empty method name.  In the
    two-factor configuration the intermediate token comes from index 0, the
    empty name is found nowhere, let alone at index 1, and yet [getToken]
    is fulfilled, with the final token of the second step. *)
Lemma empty_method_is_not_checked :
  let s := TestSuite.challenged in
  let steps := TokenManager._authSteps TestSuite.twoFactor in
  JWT.verify PlainToken.primitive TestSuite.intermediateToken TestSuite.tokenKey "user1"
    (now (world s)) = inr TestSuite.intermediatePayload
  /\ JWT.final (JWT.claims TestSuite.intermediatePayload) = false
  /\ JS.indexOf steps (JWT.from (JWT.claims TestSuite.intermediatePayload)) = 0
  /\ JS.indexOf steps (Some "") = -1
  /\ (exists token,
        fst (TokenManager.getToken PlainToken.primitive TestSuite.twoFactor
               (Some TestSuite.intermediateToken) "user1" "c0de" (Some "") s)
        = inr (AuthResult.Make token true JS.Null))
  /\ fst (TokenManager.getToken PlainToken.primitive TestSuite.twoFactor
            (Some TestSuite.intermediateToken) "user1" "c0de" (Some "") s)
     <> inl TokenManager.err_method.
Proof.
  repeat split; try (vm_compute; reflexivity).
  - eexists. vm_compute. reflexivity.
  - vm_compute. discriminate.
Qed.

Lemma explicit_method_must_be_next_witness :
  let s := TestSuite.challenged in
  let resolution := TokenManager._verifyPreviousToken PlainToken.primitive TestSuite.twoFactor in
  fst (resolution (Some TestSuite.intermediateToken) "user1" (Some "password") s)
    = inl TokenManager.err_method
  /\ fst (TokenManager.getToken PlainToken.primitive TestSuite.twoFactor
            (Some TestSuite.intermediateToken) "user1" "c0de" (Some "password") s)
     = inl TokenManager.err_method
  /\ fst (TokenManager.requestChallenge PlainToken.primitive TestSuite.twoFactor "user1"
            (Some TestSuite.intermediateToken) (Some "password") s)
     = inl TokenManager.err_method
  /\ fst (resolution (Some TestSuite.intermediateToken) "user1" None s)
     = inr (TokenManager.MkVerificationResult (Some TestSuite.intermediatePayload) (Some "code")).
Proof.
  intros s resolution.
  destruct (explicit_method_must_be_next PlainToken.primitive TestSuite.twoFactor
              TestSuite.intermediateToken "user1" s TestSuite.intermediatePayload 0)
    as [Hexplicit Hdefault].
  - exact plain_lawful.
  - vm_compute. reflexivity.
  - reflexivity.
  - vm_compute. reflexivity.
  - lia.
  - destruct (Hexplicit "password") as (H1 & H2 & H3).
    + discriminate.
    + vm_compute. discriminate.
    + split; [exact H1|]. split; [exact (H2 "c0de")|]. split; [exact H3|].
      exact (Hdefault None eq_refl).
Defined.

Lemma final_token_grants_no_step_witness :
  fst (TokenManager._verifyPreviousToken PlainToken.primitive TestSuite.single
         (Some TestSuite.finalToken) "user1" (Some "password") TestSuite.start)
    = inl TokenManager.err_final
  /\ (forall secret,
        fst (TokenManager.getToken PlainToken.primitive TestSuite.single
               (Some TestSuite.finalToken) "user1" secret (Some "password") TestSuite.start)
        = inl TokenManager.err_final)
  /\ fst (TokenManager.requestChallenge PlainToken.primitive TestSuite.single "user1"
            (Some TestSuite.finalToken) (Some "password") TestSuite.start)
     = inl TokenManager.err_final.
Proof.
  apply (final_token_grants_no_step PlainToken.primitive TestSuite.single
           TestSuite.finalToken "user1" (Some "password") TestSuite.start
           (JWT.MkPayload (JWT.MkClaims (Some "password") true) "user1" 1000 29800)).
  - exact plain_lawful.
  - vm_compute. reflexivity.
  - reflexivity.
Defined.

(** The single-step manager shares its key with the two-factor one, so the
    intermediate token of the latter verifies for it, and names its last
    step. *)
Lemma no_default_after_last_step_witness :
  fst (TokenManager._verifyPreviousToken PlainToken.primitive TestSuite.single
         (Some TestSuite.intermediateToken) "user1" None TestSuite.start)
    = inl TokenManager.err_method
  /\ (forall secret,
        fst (TokenManager.getToken PlainToken.primitive TestSuite.single
               (Some TestSuite.intermediateToken) "user1" secret None TestSuite.start)
        = inl TokenManager.err_method)
  /\ fst (TokenManager.requestChallenge PlainToken.primitive TestSuite.single "user1"
            (Some TestSuite.intermediateToken) None TestSuite.start)
     = inl TokenManager.err_method.
Proof.
  apply (no_default_after_last_step PlainToken.primitive TestSuite.single
           TestSuite.intermediateToken "user1" None TestSuite.start
           TestSuite.intermediatePayload "password").
  - exact plain_lawful.
  - apply NoDup_singleton.
  - vm_compute. reflexivity.
  - reflexivity.
  - reflexivity.
  - reflexivity.
  - reflexivity.
Defined.

(** C5 as stated does not hold for the empty method name: it is not the
    first entry, and the call is fulfilled all the same. *)
Lemma empty_first_method_is_not_checked :
  head (TokenManager._authSteps TestSuite.single) = Some "password"
  /\ (exists token,
        fst (TokenManager.getToken PlainToken.primitive TestSuite.single
               None "user1" "password1" (Some "") TestSuite.start)
        = inr (AuthResult.Make token true JS.Null))
  /\ fst (TokenManager.getToken PlainToken.primitive TestSuite.single
            None "user1" "password1" (Some "") TestSuite.start)
     <> inl TokenManager.err_method.
Proof.
  split; [reflexivity|]. split.
  - eexists. vm_compute. reflexivity.
  - vm_compute. discriminate.
Qed.

(** Skip prevention, as the test suite tries it. *)
Lemma first_step_cannot_be_chosen_witness :
  fst (TokenManager._verifyPreviousToken PlainToken.primitive TestSuite.twoFactor
         None "user1" None TestSuite.start)
    = inr (TokenManager.MkVerificationResult None (Some "password"))
  /\ TokenManager.getToken PlainToken.primitive TestSuite.twoFactor
       None "user1" "2026-11-03T00:00:00.000Z" (Some "code") TestSuite.start
     = (inl TokenManager.err_method, TestSuite.start).
Proof.
  destruct (first_step_cannot_be_chosen PlainToken.primitive TestSuite.twoFactor
              None "user1" "2026-11-03T00:00:00.000Z" TestSuite.start eq_refl)
    as [Hdefault Hexplicit].
  split.
  - exact (Hdefault None eq_refl).
  - apply Hexplicit; discriminate.
Defined.

(** The two-factor log-in of the test suite, as a chain. *)
Lemma two_factor_chain :
  TokenManager.Chain PlainToken.primitive TestSuite.twoFactor 1 TestSuite.firstResult
  /\ TokenManager.Chain PlainToken.primitive TestSuite.twoFactor 2 TestSuite.secondResult.
Proof.
  assert (C1 : TokenManager.Chain PlainToken.primitive TestSuite.twoFactor 1 TestSuite.firstResult).
  { apply (TokenManager.Chain_first _ _ None "user1" "password1" None TestSuite.start _
             (snd (TokenManager.getToken PlainToken.primitive TestSuite.twoFactor
                     None "user1" "password1" None TestSuite.start))).
    - reflexivity.
    - vm_compute. reflexivity. }
  split; [exact C1|].
  apply (TokenManager.Chain_next _ _ 1 TestSuite.firstResult "user1" "c0de" None
           TestSuite.challenged _
           (snd (TokenManager.getToken PlainToken.primitive TestSuite.twoFactor
                   (Some TestSuite.intermediateToken) "user1" "c0de" None
                   TestSuite.challenged))).
  - exact C1.
  - vm_compute. reflexivity.
Qed.

Lemma getToken_progress_witness :
  let steps := TokenManager._authSteps TestSuite.twoFactor in
  (AuthResult.final TestSuite.firstResult = true <-> 1%nat = length steps)
  /\ (AuthResult.final TestSuite.secondResult = true <-> 2%nat = length steps)
  /\ (AuthResult.final TestSuite.firstResult = true <-> last steps = Some "password")
  /\ AuthResult.next TestSuite.firstResult = JS.Arr [JS.Str "code"]
  /\ AuthResult.next TestSuite.secondResult = JS.Null.
Proof.
  intros steps.
  destruct (getToken_progress PlainToken.primitive TestSuite.twoFactor plain_lawful)
    as [Hcall Hchain].
  destruct two_factor_chain as [C1 C2].
  split; [exact (proj2 (Hchain 1%nat _ C1))|].
  split; [exact (proj2 (Hchain 2%nat _ C2))|].
  destruct (Hcall None "user1" "password1" None TestSuite.start TestSuite.firstResult
              (snd (TokenManager.getToken PlainToken.primitive TestSuite.twoFactor
                      None "user1" "password1" None TestSuite.start)))
    as (vr & m & Hres & Hm & _ & Hlast & _ & Hnext).
  { vm_compute. reflexivity. }
  vm_compute in Hres. injection Hres as <-. injection Hm as <-.
  split.
  { apply Hlast. apply NoDup_cons. split; [|apply NoDup_singleton].
    intros H. apply list_elem_of_singleton in H. discriminate H. }
  destruct (Hnext eq_refl) as (m' & Hget & Hn).
  vm_compute in Hget. injection Hget as <-.
  split; [exact Hn|].
  destruct (Hcall (Some TestSuite.intermediateToken) "user1" "c0de" None TestSuite.challenged
              TestSuite.secondResult
              (snd (TokenManager.getToken PlainToken.primitive TestSuite.twoFactor
                      (Some TestSuite.intermediateToken) "user1" "c0de" None
                      TestSuite.challenged)))
    as (vr2 & m2 & _ & _ & _ & _ & Hnull & _).
  { vm_compute. reflexivity. }
  exact (Hnull eq_refl).
Defined.

(** The token of the first step, read back a second before it expires. *)
Lemma minted_token_round_trip_witness :
  exists p,
    JWT.verify PlainToken.primitive TestSuite.intermediateToken TestSuite.tokenKey "user1"
      (1000 + 28800 - 1) = inr p
    /\ JWT.from (JWT.claims p) = Some "password"
    /\ JWT.final (JWT.claims p) = false
    /\ JWT.sub p = "user1".
Proof.
  destruct (minted_token_round_trip PlainToken.primitive TestSuite.twoFactor
              None "user1" "password1" None TestSuite.start TestSuite.firstResult
              (snd (TokenManager.getToken PlainToken.primitive TestSuite.twoFactor
                      None "user1" "password1" None TestSuite.start)))
    as (vr & m & Hres & Hm & _ & Hbefore & _).
  - exact plain_lawful.
  - vm_compute. reflexivity.
  - vm_compute in Hres. injection Hres as <-. injection Hm as <-.
    apply Hbefore. reflexivity.
Defined.

(** A wrong password, as the test suite tries it. *)
Lemma backend_rejection_propagates_witness :
  TokenManager.getToken PlainToken.primitive TestSuite.single
    None "user1" "badPassword" None TestSuite.start
  = (inl (JS.mkError "Invalid password or no such user"),
     MkState (world TestSuite.start) [EvAuthenticate "password" "user1" "badPassword"])
  /\ existsb is_sign_event [EvAuthenticate "password" "user1" "badPassword"] = false.
Proof.
  apply (backend_rejection_propagates PlainToken.primitive TestSuite.single
           None "user1" "badPassword" None TestSuite.start
           (TokenManager.MkVerificationResult None (Some "password")) TestSuite.start
           TestSuite.passwordBackend).
  - vm_compute. reflexivity.
  - vm_compute. reflexivity.
  - vm_compute. reflexivity.
Defined.

(** The password back-end sends no challenge. *)
Lemma missing_capability_is_rejected_witness :
  TokenManager.requestChallenge PlainToken.primitive TestSuite.twoFactor
    "user1" None None TestSuite.start
  = (inl (JS.TypeError "backends[chosenMethod].requestChallenge is not a function"),
     TestSuite.start).
Proof.
  apply (missing_capability_is_rejected PlainToken.primitive TestSuite.twoFactor
           None "user1" None TestSuite.start
           (TokenManager.MkVerificationResult None (Some "password")) TestSuite.start
           TestSuite.passwordBackend).
  - vm_compute. reflexivity.
  - vm_compute. reflexivity.
  - reflexivity.
Defined.

(** * Further properties of the code *)

(** ** More on arrays of method names *)

(** What is found is an entry. *)
Lemma indexOf_elem (l : list string) (x : option string) :
  0 <= JS.indexOf l x -> exists m, x = Some m /\ m ∈ l.
Proof.
  intros H. pose proof (indexOf_get l x H) as G.
  destruct x as [m|]; [|simpl in H; lia].
  exists m. split; [reflexivity|].
  unfold JS.get in G. destruct (JS.indexOf l (Some m) <? 0); [discriminate|].
  apply list_elem_of_lookup. eauto.
Qed.

(** An entry is found, at its first position. *)
Lemma indexOf_first (l : list string) (j : nat) (x : string) :
  l !! j = Some x -> 0 <= JS.indexOf l (Some x) <= Z.of_nat j.
Proof.
  intros H. simpl.
  assert (G : forall i, 0 <= i -> i <= JS.indexOf_from l x i <= i + Z.of_nat j).
  { revert j H. induction l as [|y l IH]; intros j H i Hi; [discriminate|].
    simpl. destruct (String.eqb y x) eqn:E; [lia|].
    apply String.eqb_neq in E.
    destruct j as [|j]; simpl in H; [congruence|].
    specialize (IH j H (i + 1) ltac:(lia)). lia. }
  specialize (G 0 ltac:(lia)). lia.
Qed.

Section Further.

Context {Store : Type}.
Variable P : JWT.Primitive.
Variable self : TokenManager.t Store.

Local Abbreviation steps := (TokenManager._authSteps self).
Local Abbreviation key := (TokenManager.key (TokenManager._tokenParameters self)).
Local Abbreviation backends := (TokenManager._authBackends self).
Local Abbreviation resolution := (TokenManager._verifyPreviousToken P self).
Local Abbreviation getToken := (TokenManager.getToken P self).
Local Abbreviation challenge := (TokenManager.requestChallenge P self).

(** X1. A previous token that verifies, is not final, and names in [from] no
    step of the sequence (or nothing at all) is rejected as coming from an
    invalid step, whatever method is requested. *)
Theorem unknown_previous_step_is_rejected tok subjectID method (s : State Store) p :
  JWT.Lawful P ->
  JWT.verify P tok key subjectID (now (world s)) = inr p ->
  JWT.final (JWT.claims p) = false ->
  (forall f, JWT.from (JWT.claims p) = Some f -> f ∉ steps) ->
  (forall secret,
     getToken (Some tok) subjectID secret method s
       = (inl TokenManager.err_previous_step, record (EvVerify tok subjectID) s))
  /\ challenge subjectID (Some tok) method s
     = (inl TokenManager.err_previous_step, record (EvVerify tok subjectID) s).
Proof.
  intros HP Hv Hf Hnot.
  pose proof (verified_truthy P self _ _ _ _ HP Hv) as T.
  assert (R : resolution (Some tok) subjectID method s
              = (inl TokenManager.err_previous_step, record (EvVerify tok subjectID) s)).
  { rewrite resolution_present by exact T. rewrite Hv, Hf. cbv zeta.
    destruct (JS.indexOf steps (JWT.from (JWT.claims p)) <? 0) eqn:E; [reflexivity|].
    destruct (indexOf_elem steps (JWT.from (JWT.claims p)) ltac:(lia)) as (m & Hm & Hin).
    now destruct (Hnot m Hm). }
  split.
  - intros secret.
    rewrite (getToken_rejected P self _ _ _ _ _ TokenManager.err_previous_step); now rewrite R.
  - rewrite (requestChallenge_rejected P self _ _ _ _ TokenManager.err_previous_step);
      now rewrite R.
Qed.

(** X2. When the verifier refuses the previous token, both operations are
    rejected with the verifier's own reason; the verifier is the only
    collaborator called and the world is untouched. *)
Theorem verification_failure_propagates tok subjectID method (s : State Store) e :
  tok <> "" ->
  JWT.verify P tok key subjectID (now (world s)) = inl e ->
  (forall secret,
     getToken (Some tok) subjectID secret method s
       = (inl e, MkState (world s) (log s ++ [EvVerify tok subjectID])))
  /\ challenge subjectID (Some tok) method s
     = (inl e, MkState (world s) (log s ++ [EvVerify tok subjectID])).
Proof.
  intros Hne Hv.
  assert (T : JS.truthy (Some tok) = true).
  { simpl. apply negb_true_iff. now apply String.eqb_neq. }
  assert (R : resolution (Some tok) subjectID method s
              = (inl e, record (EvVerify tok subjectID) s)).
  { rewrite resolution_present by exact T. now rewrite Hv. }
  split.
  - intros secret. rewrite (getToken_rejected P self _ _ _ _ _ e); now rewrite R.
  - rewrite (requestChallenge_rejected P self _ _ _ _ e); now rewrite R.
Qed.

(** X3. An empty string given as previous token counts as no token: nothing
    is verified and both operations behave as without one. *)
Theorem empty_previous_token_is_no_token subjectID secret method (s : State Store) :
  getToken (Some "") subjectID secret method s = getToken None subjectID secret method s
  /\ challenge subjectID (Some "") method s = challenge subjectID None method s
  /\ snd (resolution (Some "") subjectID method s) = s.
Proof.
  assert (R : resolution (Some "") subjectID method s = resolution None subjectID method s).
  { now rewrite !resolution_absent. }
  unfold TokenManager.getToken, TokenManager.requestChallenge, then_.
  rewrite R. repeat split. now rewrite resolution_absent.
Qed.


(** X5. When the back-end accepts and signing then fails, [getToken] is
    rejected with the signer's reason, and the world stays as the back-end
    left it: what the back-end did is not undone. *)
Theorem sign_failure_keeps_backend_effect previousToken subjectID secret method (s : State Store)
    vr s1 backend w e :
  resolution previousToken subjectID method s = (inr vr, s1) ->
  TokenManager.property backends (TokenManager.method vr) = Some backend ->
  authenticate backend subjectID secret (world s1) = (inr tt, w) ->
  let m := TokenManager.method vr in
  let claims := JWT.MkClaims m (JS.indexOf steps m =? Z.of_nat (length steps) - 1) in
  JWT.sign P claims key subjectID JWT.expiresIn (now w) = inl e ->
  getToken previousToken subjectID secret method s
    = (inl e,
       MkState w (log s1 ++ [EvAuthenticate (JS.ToString (JS.of_option m)) subjectID secret;
                             EvSign claims subjectID])).
Proof.
  intros R Hb Ha m claims Hs. subst m claims.
  rewrite (getToken_resolved P self _ _ _ _ _ _ _ R). cbv zeta. rewrite Hb, Ha, Hs.
  unfold record. cbn [world log]. now rewrite <- app_assoc.
Qed.

(** X6. A fulfilled [getToken] has called, after resolution, the back-end
    of one configured step exactly once, with the subject and secret it was
    given, and then the signer exactly once, for that step and the finality
    it reports; nothing else. *)
Theorem fulfilled_getToken_calls previousToken subjectID secret method (s : State Store) r s' :
  getToken previousToken subjectID secret method s = (inr r, s') ->
  exists m,
    m ∈ steps
    /\ log s' = log s ++ TokenManager.resolution_events previousToken subjectID
                 ++ [EvAuthenticate m subjectID secret;
                     EvSign (JWT.MkClaims (Some m) (AuthResult.final r)) subjectID].
Proof.
  intros G.
  destruct (getToken_fulfilled P self _ _ _ _ _ _ _ G)
    as (vr & s1 & m & backend & R & Hm & Hi & Hb & Ha & Hs & Ht & Hf & _).
  exists m. split.
  { destruct (indexOf_elem steps (Some m) ltac:(lia)) as (m0 & [= <-] & Hin). exact Hin. }
  pose proof (resolution_log P self previousToken subjectID method s) as L.
  rewrite R in L. cbn [snd] in L.
  rewrite (getToken_resolved P self _ _ _ _ _ _ _ R) in G. cbv zeta in G.
  rewrite Hm, Hb in G.
  destruct (authenticate backend subjectID secret (world s1)) as [[e|[]] w];
    [discriminate G|].
  injection Ha as ->. rewrite <- Hf, Hs in G.
  injection G as _ <-. subst s1. unfold record. cbn [log].
  now rewrite <- !app_assoc.
Qed.

(** X7. [requestChallenge] hands the request to the back-end of the resolved
    method and settles exactly as that back-end does, fulfilled or
    rejected; the back-end's call is the only one after resolution, so no
    secret is checked and no token is signed. *)
Theorem requestChallenge_delegates previousToken subjectID method (s : State Store)
    vr s1 backend f r w :
  resolution previousToken subjectID method s = (inr vr, s1) ->
  TokenManager.property backends (TokenManager.method vr) = Some backend ->
  requestChallenge backend = Some f ->
  f subjectID (world s) = (r, w) ->
  challenge subjectID previousToken method s
    = (r, MkState w (log s ++ TokenManager.resolution_events previousToken subjectID
                       ++ [EvRequestChallenge (JS.ToString (JS.of_option (TokenManager.method vr)))
                             subjectID])).
Proof.
  intros R Hb Hc Hf.
  pose proof (resolution_log P self previousToken subjectID method s) as L.
  rewrite R in L. cbn [snd] in L. subst s1.
  rewrite (requestChallenge_resolved P self _ _ _ _ _ _ R). cbv zeta.
  rewrite Hb, Hc. cbn [world log]. rewrite Hf. now rewrite app_assoc.
Qed.

(** X8. The token that ends a chain of fulfilled calls cannot be continued:
    given as previous token it is rejected, by the verifier or else as a
    final token, under any subject, secret and method and at any time, and
    no back-end is called. *)
Theorem final_token_ends_the_chain n r subjectID secret method (s : State Store) :
  JWT.Lawful P ->
  TokenManager.Chain P self n r ->
  AuthResult.final r = true ->
  let e := match JWT.verify P (AuthResult.token r) key subjectID (now (world s)) with
           | inl e => e
           | inr _ => TokenManager.err_final
           end in
  getToken (Some (AuthResult.token r)) subjectID secret method s
    = (inl e, record (EvVerify (AuthResult.token r) subjectID) s)
  /\ challenge subjectID (Some (AuthResult.token r)) method s
     = (inl e, record (EvVerify (AuthResult.token r) subjectID) s).
Proof.
  intros HP C Hfin e.
  destruct (chain_position P self n r HP C) as (m & sub0 & t0 & Hs & Hne & _).
  assert (T : JS.truthy (Some (AuthResult.token r)) = true).
  { simpl. apply negb_true_iff. now apply String.eqb_neq. }
  assert (R : resolution (Some (AuthResult.token r)) subjectID method s
              = (inl e, record (EvVerify (AuthResult.token r) subjectID) s)).
  { rewrite resolution_present by exact T. subst e.
    destruct (JWT.verify P (AuthResult.token r) key subjectID (now (world s))) as [e'|p] eqn:V;
      [reflexivity|].
    rewrite (JWT.verify_claims P HP _ _ _ _ _ _ _ _ _ Hs V). cbn [JWT.final].
    now rewrite Hfin. }
  split.
  - rewrite (getToken_rejected P self _ _ _ _ _ e); now rewrite R.
  - rewrite (requestChallenge_rejected P self _ _ _ _ e); now rewrite R.
Qed.

(** X9. The token of the [n]-th call of a chain stands for the [n]-th
    configured step: whenever it verifies, its [from] claim is the entry at
    index [n - 1]. *)
Theorem chain_follows_the_sequence n r :
  JWT.Lawful P ->
  TokenManager.Chain P self n r ->
  exists m,
    steps !! pred n = Some m
    /\ forall subject t p,
         JWT.verify P (AuthResult.token r) key subject t = inr p ->
         JWT.from (JWT.claims p) = Some m.
Proof.
  intros HP C.
  destruct (chain_position P self n r HP C) as (m & sub0 & t0 & Hs & _ & Hi & Hb & _).
  exists m. split.
  - pose proof (indexOf_get steps (Some m) ltac:(lia)) as G.
    unfold JS.get in G. destruct (JS.indexOf steps (Some m) <? 0); [discriminate|].
    rewrite Hi in G. now replace (Z.to_nat (Z.of_nat n - 1)) with (pred n) in G by lia.
  - intros subject t p V. now rewrite (JWT.verify_claims P HP _ _ _ _ _ _ _ _ _ Hs V).
Qed.

(** X10. With an empty sequence every call is rejected during resolution,
    before any back-end is called. *)
Theorem empty_sequence_rejects_every_call previousToken subjectID secret method (s : State Store) :
  steps = [] ->
  exists e,
    resolution previousToken subjectID method s
      = (inl e, MkState (world s) (log s ++ TokenManager.resolution_events previousToken subjectID))
    /\ getToken previousToken subjectID secret method s
       = (inl e, MkState (world s) (log s ++ TokenManager.resolution_events previousToken subjectID))
    /\ challenge subjectID previousToken method s
       = (inl e, MkState (world s) (log s ++ TokenManager.resolution_events previousToken subjectID)).
Proof.
  intros Hnil.
  pose proof (resolution_log P self previousToken subjectID method s) as L.
  destruct (resolution previousToken subjectID method s) as [[e|vr] s1] eqn:R.
  - cbn [snd] in L. subst s1. exists e. split; [reflexivity|]. split.
    + rewrite (getToken_rejected P self _ _ _ _ _ e); now rewrite R.
    + rewrite (requestChallenge_rejected P self _ _ _ _ e); now rewrite R.
  - destruct (resolution_fulfilled P self _ _ _ _ _ _ R) as [H0 _].
    destruct (indexOf_elem steps _ H0) as (m & _ & Hin).
    rewrite Hnil in Hin. now apply not_elem_of_nil in Hin.
Qed.

(** An explicit method is never replaced: resolution returns it or
    rejects. *)
Lemma resolution_keeps_explicit previousToken subjectID method (s : State Store) vr s1 :
  resolution previousToken subjectID method s = (inr vr, s1) ->
  JS.truthy method = true ->
  TokenManager.method vr = method.
Proof.
  intros R Tm. destruct (JS.truthy previousToken) eqn:T.
  - destruct previousToken as [tok|]; [|discriminate].
    rewrite resolution_present in R by exact T. cbv zeta in R. rewrite Tm in R.
    destruct (JWT.verify P tok key subjectID (now (world s))) as [e|p]; [discriminate R|].
    destruct (JWT.final (JWT.claims p)); [discriminate R|].
    destruct (JS.indexOf steps (JWT.from (JWT.claims p)) <? 0); [discriminate R|].
    destruct (JS.indexOf steps method =? _); [|discriminate R].
    now injection R as <- _.
  - rewrite resolution_absent in R by exact T. cbv zeta in R. rewrite Tm in R.
    destruct (JS.indexOf steps method =? 0); [|discriminate R].
    now injection R as <- _.
Qed.

(** Asking for the method resolution settled on changes nothing. *)
Lemma resolution_of_resolved previousToken subjectID method (s : State Store) vr s1 :
  resolution previousToken subjectID method s = (inr vr, s1) ->
  resolution previousToken subjectID (TokenManager.method vr) s = (inr vr, s1).
Proof.
  intros R. destruct (JS.truthy method) eqn:Tm.
  { now rewrite (resolution_keeps_explicit _ _ _ _ _ _ R Tm). }
  destruct (JS.truthy previousToken) eqn:T.
  - destruct previousToken as [tok|]; [|discriminate].
    rewrite resolution_present in R |- * by exact T. cbv zeta in R |- *. rewrite Tm in R.
    destruct (JWT.verify P tok key subjectID (now (world s))) as [e|p]; [discriminate R|].
    destruct (JWT.final (JWT.claims p)); [discriminate R|].
    destruct (JS.indexOf steps (JWT.from (JWT.claims p)) <? 0); [discriminate R|].
    destruct (JS.indexOf steps (JS.get steps _) =? _) eqn:E; [|discriminate R].
    injection R as <- <-. cbn [TokenManager.method].
    destruct (JS.truthy (JS.get steps _)); now rewrite E.
  - rewrite resolution_absent in R |- * by exact T. cbv zeta in R |- *. rewrite Tm in R.
    destruct (JS.indexOf steps (JS.get steps 0) =? 0) eqn:E; [|discriminate R].
    injection R as <- <-. cbn [TokenManager.method].
    destruct (JS.truthy (JS.get steps 0)); now rewrite E.
Qed.

(** X11. Whatever the caller asks for, the method resolution settles on is
    an entry of the sequence, and it is the caller's own whenever that one
    is explicit (not empty). *)
Theorem resolved_method_is_configured previousToken subjectID method (s : State Store) vr s1 :
  resolution previousToken subjectID method s = (inr vr, s1) ->
  (exists m, TokenManager.method vr = Some m /\ m ∈ steps)
  /\ (JS.truthy method = true -> TokenManager.method vr = method).
Proof.
  intros R. split.
  - destruct (resolution_fulfilled P self _ _ _ _ _ _ R) as [H0 _].
    exact (indexOf_elem steps _ H0).
  - exact (resolution_keeps_explicit _ _ _ _ _ _ R).
Qed.

(** X12. Naming the method that would be the default is the same as leaving
    the method out: when a call resolves, the same call with the resolved
    method given explicitly does exactly the same. *)
Theorem explicit_default_changes_nothing previousToken subjectID secret method (s : State Store)
    vr s1 :
  resolution previousToken subjectID method s = (inr vr, s1) ->
  getToken previousToken subjectID secret (TokenManager.method vr) s
    = getToken previousToken subjectID secret method s
  /\ challenge subjectID previousToken (TokenManager.method vr) s
     = challenge subjectID previousToken method s.
Proof.
  intros R. pose proof (resolution_of_resolved _ _ _ _ _ _ R) as R'.
  unfold TokenManager.getToken, TokenManager.requestChallenge, then_.
  now rewrite R, R'.
Qed.

(** X13. In a sequence of unique names, the step a result advertises in
    [next] is the step its token opens: presented before it expires, for
    the same subject, with that method or with none, the token resolves to
    the advertised method. *)
Theorem advertised_next_is_resolved previousToken subjectID secret method (s : State Store)
    r s' m' method2 (s2 : State Store) :
  JWT.Lawful P ->
  NoDup steps ->
  getToken previousToken subjectID secret method s = (inr r, s') ->
  AuthResult.next r = JS.Arr [JS.Str m'] ->
  now (world s2) < now (world s') + JWT.expiresIn ->
  JS.truthy method2 = false \/ method2 = Some m' ->
  exists p,
    resolution (Some (AuthResult.token r)) subjectID method2 s2
      = (inr (TokenManager.MkVerificationResult (Some p) (Some m')),
         record (EvVerify (AuthResult.token r) subjectID) s2).
Proof.
  intros HP Hnd G Hnext Ht Hm2.
  destruct (getToken_fulfilled P self _ _ _ _ _ _ _ G)
    as (vr & s1 & m & backend & _ & _ & Hi & _ & _ & Hs & Hne & Hf & Hn).
  rewrite Hnext in Hn.
  destruct (AuthResult.final r) eqn:Hfin; [discriminate Hn|].
  destruct (JS.get steps (JS.indexOf steps (Some m) + 1)) as [m''|] eqn:Hget;
    cbn [JS.of_option] in Hn; [|discriminate Hn]. injection Hn as <-.
  assert (Hidx : JS.indexOf steps (Some m') = JS.indexOf steps (Some m) + 1).
  { unfold JS.get in Hget.
    destruct (JS.indexOf steps (Some m) + 1 <? 0) eqn:E; [discriminate Hget|].
    rewrite (indexOf_NoDup _ _ _ Hnd Hget). lia. }
  assert (T : JS.truthy (Some (AuthResult.token r)) = true).
  { simpl. apply negb_true_iff. now apply String.eqb_neq. }
  eexists. rewrite resolution_present by exact T.
  rewrite (JWT.verify_sign P HP _ _ _ _ _ _ _ Hs Ht). cbn [JWT.claims JWT.final JWT.from].
  cbv zeta. destruct (JS.indexOf steps (Some m) <? 0) eqn:E; [lia|].
  assert (Heff : (if JS.truthy method2 then method2
                  else JS.get steps (JS.indexOf steps (Some m) + 1)) = Some m').
  { destruct Hm2 as [Hm2| ->].
    - now rewrite Hm2.
    - now destruct (JS.truthy (Some m')). }
  rewrite Heff, Hidx, Z.eqb_refl. reflexivity.
Qed.

(** X14. A name is only ever resolved at its first position.  So when the
    last entry of the sequence also occurs earlier, no [getToken] call is
    ever fulfilled with a final result. *)
Theorem repeated_last_step_is_never_final j m previousToken subjectID secret method
    (s : State Store) r s' :
  steps !! j = Some m ->
  last steps = Some m ->
  (S j < length steps)%nat ->
  getToken previousToken subjectID secret method s = (inr r, s') ->
  AuthResult.final r = false.
Proof.
  intros Hj Hlast Hlt G.
  destruct (getToken_fulfilled P self _ _ _ _ _ _ _ G)
    as (vr & s1 & m0 & backend & _ & _ & Hi & _ & _ & _ & _ & Hf & _).
  destruct (AuthResult.final r) eqn:Hfin; [|reflexivity].
  symmetry in Hf. apply Z.eqb_eq in Hf.
  pose proof (indexOf_get steps (Some m0) ltac:(lia)) as Gt.
  unfold JS.get in Gt. destruct (JS.indexOf steps (Some m0) <? 0); [discriminate Gt|].
  rewrite Hf in Gt. rewrite last_lookup in Hlast.
  replace (Z.to_nat (Z.of_nat (length steps) - 1)) with (pred (length steps)) in Gt by lia.
  rewrite Hlast in Gt. injection Gt as ->.
  pose proof (indexOf_first steps j m0 Hj). lia.
Qed.

End Further.

(** ** The value objects again *)

(** X15. A result object that was built is built again, unchanged, from its
    own fields: the constructor only normalizes. *)
Theorem AuthResult_rebuilds (a : AuthResult.args) (r : AuthResult.t) :
  AuthResult.constructor a = inr r ->
  AuthResult.constructor
    (AuthResult.Args (JS.Str (AuthResult.token r)) (JS.Bool (AuthResult.final r))
       (AuthResult.next r)) = inr r.
Proof.
  unfold AuthResult.constructor. simpl JS.truthy.
  destruct (String.eqb (JS.ToString (AuthResult.arg_token a)) "") eqn:Et;
    [intros H; discriminate H|].
  cbn [negb orb].
  destruct (JS.ToBoolean (JS.default (JS.Bool true) (AuthResult.arg_final a))) eqn:Ef.
  - cbn [negb andb]. intros [= <-]. cbn. rewrite Et. cbn.
    now destruct (AuthResult.arg_next a).
  - cbn [negb andb].
    destruct (JS.default JS.Null (AuthResult.arg_next a)) as [| |b|u|[|x l]] eqn:En;
      cbn; rewrite ?orb_true_r; intros H; try discriminate H.
    injection H as <-. cbn. now rewrite Et.
Qed.

(** X16. Only an omitted [final] counts as true.  With [final] and [next]
    both left out, any token with a non-empty string form gives a final
    result; with [final] given as null and [next] left out, nothing is
    built. *)
Theorem omitted_final_is_true (token : JS.Value) :
  JS.ToString token <> "" ->
  AuthResult.constructor (AuthResult.Args token JS.Undefined JS.Undefined)
    = inr (AuthResult.Make (JS.ToString token) true JS.Null)
  /\ AuthResult.constructor (AuthResult.Args token JS.Null JS.Undefined)
     = inl AuthResult.invalid.
Proof.
  intros Hne. apply String.eqb_neq in Hne.
  unfold AuthResult.constructor. cbn. rewrite Hne. cbn. split; reflexivity.
Qed.

(** ** The Redis password back-end *)

Lemma append_assoc (a b c : string) : (a +:+ b) +:+ c = a +:+ (b +:+ c).
Proof.
  induction a as [|x a IH]; [reflexivity|].
  change (String x ((a +:+ b) +:+ c) = String x (a +:+ (b +:+ c))). now rewrite IH.
Qed.

Section Redis.

Variable bcrypt_compare : string -> string -> bool.
Variable self : RedisPasswordBackend.t.

Local Abbreviation authenticate_ := (RedisPasswordBackend.authenticate bcrypt_compare self).

(** The three paths of [authenticate]. *)
Lemma redis_authenticate_cases subjectID secret (w : World (gmap string string)) :
  authenticate_ subjectID secret w =
    (match store w !! RedisPasswordBackend.key self subjectID with
     | Some hash =>
         if negb (String.eqb hash "") && bcrypt_compare secret hash then inr tt
         else inl AuthenticationFailed
     | None => inl AuthenticationFailed
     end, w).
Proof.
  unfold RedisPasswordBackend.authenticate.
  destruct (store w !! RedisPasswordBackend.key self subjectID) as [hash|]; cbn;
    [|reflexivity].
  destruct (String.eqb hash ""); cbn; [reflexivity|].
  now destruct (bcrypt_compare secret hash).
Qed.

(** X17. The Redis back-end only reads: the database is left as it was.
    It accepts exactly when a non-empty hash is stored under the subject's
    key and [bcrypt] matches the secret against it; an unknown subject, an
    empty entry and a wrong secret are all rejected with the same
    [AuthenticationFailed]. *)
Theorem redis_authenticate_outcome subjectID secret (w : World (gmap string string)) :
  snd (authenticate_ subjectID secret w) = w
  /\ (fst (authenticate_ subjectID secret w) = inr tt <->
      exists hash,
        store w !! RedisPasswordBackend.key self subjectID = Some hash
        /\ hash <> "" /\ bcrypt_compare secret hash = true)
  /\ (fst (authenticate_ subjectID secret w) <> inr tt ->
      fst (authenticate_ subjectID secret w) = inl AuthenticationFailed).
Proof.
  rewrite redis_authenticate_cases. cbn [fst snd].
  split; [reflexivity|].
  destruct (store w !! RedisPasswordBackend.key self subjectID) as [hash|].
  - destruct (String.eqb hash "") eqn:Eh; cbn [negb andb].
    + apply String.eqb_eq in Eh. split; [|reflexivity]. split; [discriminate|].
      intros (h & Hh & Hne & _). congruence.
    + apply String.eqb_neq in Eh.
      destruct (bcrypt_compare secret hash) eqn:Ec.
      * split; [|congruence]. split; eauto.
      * split; [|reflexivity]. split; [discriminate|].
        intros (h & Hh & _ & Hc). congruence.
  - split; [|reflexivity]. split; [discriminate|].
    intros (h & Hh & _). discriminate Hh.
Qed.

(** X18. Under one prefix, two subjects read the same entry only if they
    are the same subject. *)
Theorem redis_key_separates_subjects (subject1 subject2 : string) :
  RedisPasswordBackend.key self subject1 = RedisPasswordBackend.key self subject2
  <-> subject1 = subject2.
Proof.
  split; [|now intros ->].
  unfold RedisPasswordBackend.key. intros H.
  apply (String.app_inj (RedisPasswordBackend._prefix self)) in H.
  now apply (String.app_inj ":") in H.
Qed.

End Redis.

(** X19. Prefixes do not separate instances: a subject whose name contains
    a colon is answered from the entries of the instance whose prefix ends
    with the part before the colon. *)
Theorem redis_prefixes_overlap (bcrypt_compare : string -> string -> bool)
    (prefix part subjectID secret : string) (w : World (gmap string string)) :
  RedisPasswordBackend.authenticate bcrypt_compare
    (RedisPasswordBackend.Make prefix) (part +:+ ":" +:+ subjectID) secret w
  = RedisPasswordBackend.authenticate bcrypt_compare
      (RedisPasswordBackend.Make (prefix +:+ ":" +:+ part)) subjectID secret w.
Proof.
  unfold RedisPasswordBackend.authenticate, RedisPasswordBackend.key.
  cbn [RedisPasswordBackend._prefix].
  now rewrite !append_assoc.
Qed.

(** X20. With the Redis back-end as the only step, a log-in without
    previous token and method asks the back-end once; it is rejected with
    [AuthenticationFailed], nothing being signed, unless [authenticate]
    accepts, and then the token the signer returns comes back as a final
    result. *)
Theorem redis_single_step_login (P : JWT.Primitive) (bcrypt_compare : string -> string -> bool)
    (rb : RedisPasswordBackend.t) (name k subjectID secret : string)
    (s : State (gmap string string)) :
  let manager :=
    TokenManager.Make {[ name := RedisPasswordBackend.backend bcrypt_compare rb ]} [ name ]
      (TokenManager.MkTokenParameters k) in
  let call := EvAuthenticate name subjectID secret in
  let claims := JWT.MkClaims (Some name) true in
  TokenManager.getToken P manager None subjectID secret None s =
    match fst (RedisPasswordBackend.authenticate bcrypt_compare rb subjectID secret (world s)) with
    | inl _ => (inl AuthenticationFailed, MkState (world s) (log s ++ [call]))
    | inr _ =>
        (match JWT.sign P claims k subjectID JWT.expiresIn (now (world s)) with
         | inl e => inl e
         | inr token =>
             if String.eqb token "" then inl AuthResult.invalid
             else inr (AuthResult.Make token true JS.Null)
         end, MkState (world s) (log s ++ [call; EvSign claims subjectID]))
    end.
Proof.
  intros manager call claims.
  assert (I : JS.indexOf [name] (Some name) = 0) by (cbn; now rewrite String.eqb_refl).
  assert (R : TokenManager._verifyPreviousToken P manager None subjectID None s
              = (inr (TokenManager.MkVerificationResult None (Some name)), s)).
  { rewrite resolution_absent by reflexivity. cbn.
    change ([name] !! Z.to_nat 0) with (Some name). now rewrite I. }
  rewrite (getToken_resolved P manager _ _ _ _ _ _ _ R). cbv zeta.
  cbn [TokenManager.method TokenManager._authBackends TokenManager._authSteps manager
       TokenManager._tokenParameters TokenManager.key JS.of_option JS.ToString].
  unfold TokenManager.property. cbn [JS.of_option JS.ToString].
  rewrite lookup_singleton_eq.
  rewrite I. change (0 =? Z.of_nat (length [name]) - 1) with true. cbv iota.
  cbn [authenticate RedisPasswordBackend.backend].
  rewrite (redis_authenticate_cases bcrypt_compare rb subjectID secret (world s)).
  cbn [fst].
  destruct (match store (world s) !! RedisPasswordBackend.key rb subjectID with
            | Some hash =>
                if negb (String.eqb hash "") && bcrypt_compare secret hash then inr tt
                else inl AuthenticationFailed
            | None => inl AuthenticationFailed
            end) as [e|[]] eqn:Ha.
  - assert (e = AuthenticationFailed) as ->; [|reflexivity].
    destruct (store (world s) !! _) as [hash|]; [|congruence].
    destruct (negb (String.eqb hash "") && bcrypt_compare secret hash); congruence.
  - subst claims call. unfold record. cbn [world log]. rewrite <- app_assoc.
    destruct (JWT.sign P _ k subjectID JWT.expiresIn (now (world s))) as [e|token];
      [reflexivity|].
    unfold AuthResult.constructor. cbn. now destruct (String.eqb token "").
Qed.

(** ** The code back-end of the test suite *)

(** The two paths of [CodeBackend.authenticate]. *)
Lemma code_authenticate_cases subjectID secret (w : World TestSuite.Store) :
  authenticate TestSuite.CodeBackend subjectID secret w =
    if bool_decide (TestSuite.userCodes (store w) !! subjectID = Some secret)
       && negb (String.eqb secret "")
    then (inr tt,
          MkWorld (now w)
            (TestSuite.MkStore (delete subjectID (TestSuite.userCodes (store w)))
               (TestSuite.uuids (store w)) (TestSuite.delivered (store w))))
    else (inl (JS.mkError "Invalid code"), w).
Proof.
  cbn. destruct (TestSuite.userCodes (store w) !! subjectID) as [code|] eqn:E; cbn.
  - destruct (bool_decide (Some code = Some secret)) eqn:B.
    + apply bool_decide_eq_true in B. injection B as ->.
      rewrite andb_true_r. now destruct (String.eqb secret "").
    + now rewrite andb_false_r.
  - rewrite (bool_decide_eq_false_2 (None = Some secret)) by discriminate. reflexivity.
Qed.

(** The code [CodeBackend.requestChallenge] sends: the pending one, or a
    fresh one that becomes pending. *)
Lemma code_request_cases f subjectID (w : World TestSuite.Store) :
  requestChallenge TestSuite.CodeBackend = Some f ->
  exists code,
    f subjectID w =
      (inr (AuthChallenge.Make JS.Null "undefined" true),
       MkWorld (now w)
         (TestSuite.MkStore (<[subjectID := code]> (TestSuite.userCodes (store w)))
            (match TestSuite.userCodes (store w) !! subjectID with
             | Some _ => TestSuite.uuids (store w)
             | None => tail (TestSuite.uuids (store w))
             end)
            (TestSuite.delivered (store w) ++ [(subjectID, code)])))
    /\ code = match TestSuite.userCodes (store w) !! subjectID with
              | Some code => code
              | None => fst (TestSuite.uuid_v4 (store w))
              end.
Proof.
  intros [= <-]. eexists. split; [|reflexivity].
  destruct (TestSuite.userCodes (store w) !! subjectID) as [code|] eqn:E; cbn.
  - unfold TestSuite.codeCallback. cbn. now rewrite (insert_id _ _ _ E).
  - unfold TestSuite.uuid_v4, TestSuite.codeCallback.
    destruct (TestSuite.uuids (store w)) eqn:U; cbn; rewrite ?U; reflexivity.
Qed.

(** X21. A code is good for one log-in: once [authenticate] has accepted,
    the subject has no pending code and every secret is rejected, the
    accepted one included. *)
Theorem code_is_single_use subjectID secret (w w' : World TestSuite.Store) :
  authenticate TestSuite.CodeBackend subjectID secret w = (inr tt, w') ->
  TestSuite.userCodes (store w') !! subjectID = None
  /\ forall secret',
       authenticate TestSuite.CodeBackend subjectID secret' w'
         = (inl (JS.mkError "Invalid code"), w').
Proof.
  rewrite code_authenticate_cases.
  destruct (_ && _); [|intros H; discriminate H].
  intros [= <-]. cbn [store TestSuite.userCodes]. rewrite lookup_delete_eq.
  split; [reflexivity|]. intros secret'.
  rewrite code_authenticate_cases. cbn [store TestSuite.userCodes].
  rewrite lookup_delete_eq.
  now rewrite (bool_decide_eq_false_2 (None = Some secret')) by discriminate.
Qed.

(** X22. A rejected attempt costs nothing: the world, pending code included,
    is as before, and the reason is always the same. *)
Theorem wrong_code_is_not_consumed subjectID secret (w w' : World TestSuite.Store) e :
  authenticate TestSuite.CodeBackend subjectID secret w = (inl e, w') ->
  w' = w /\ e = JS.mkError "Invalid code".
Proof.
  rewrite code_authenticate_cases.
  destruct (_ && _); [intros H; discriminate H|].
  now intros [= <- <-].
Qed.

(** X23. Asking again for a challenge sends the pending code again: the
    second request delivers the code of the first, draws no new identifier
    and leaves the pending codes as they are. *)
Theorem repeated_challenge_resends_the_code f subjectID (w w1 w2 : World TestSuite.Store) r1 r2 :
  requestChallenge TestSuite.CodeBackend = Some f ->
  f subjectID w = (r1, w1) ->
  f subjectID w1 = (r2, w2) ->
  r2 = r1
  /\ TestSuite.userCodes (store w2) = TestSuite.userCodes (store w1)
  /\ TestSuite.uuids (store w2) = TestSuite.uuids (store w1)
  /\ exists code,
       last (TestSuite.delivered (store w1)) = Some (subjectID, code)
       /\ TestSuite.delivered (store w2) = TestSuite.delivered (store w1) ++ [(subjectID, code)].
Proof.
  intros Hf H1 H2.
  destruct (code_request_cases f subjectID w Hf) as (code & E1 & _).
  rewrite E1 in H1. injection H1 as <- <-.
  destruct (code_request_cases f subjectID
              (MkWorld (now w)
                 (TestSuite.MkStore (<[subjectID := code]> (TestSuite.userCodes (store w)))
                    (match TestSuite.userCodes (store w) !! subjectID with
                     | Some _ => TestSuite.uuids (store w)
                     | None => tail (TestSuite.uuids (store w))
                     end)
                    (TestSuite.delivered (store w) ++ [(subjectID, code)]))) Hf)
    as (code' & E2 & Hc').
  rewrite E2 in H2. injection H2 as <- <-.
  cbn [store TestSuite.userCodes TestSuite.uuids TestSuite.delivered] in *.
  rewrite lookup_insert_eq in Hc' |- *. subst code'.
  split; [reflexivity|]. split; [apply insert_insert_eq|]. split; [reflexivity|].
  exists code. split; [apply last_snoc | reflexivity].
Qed.

(** X24. The code a challenge delivers is the one [authenticate] accepts:
    unless it is empty, presenting it right after the request succeeds. *)
Theorem delivered_code_is_accepted f subjectID (w w1 : World TestSuite.Store) r :
  requestChallenge TestSuite.CodeBackend = Some f ->
  f subjectID w = (r, w1) ->
  exists code,
    last (TestSuite.delivered (store w1)) = Some (subjectID, code)
    /\ (code <> "" -> fst (authenticate TestSuite.CodeBackend subjectID code w1) = inr tt).
Proof.
  intros Hf H1.
  destruct (code_request_cases f subjectID w Hf) as (code & E1 & _).
  rewrite E1 in H1. injection H1 as <- <-.
  exists code. cbn [store TestSuite.delivered]. split; [apply last_snoc|].
  intros Hne. rewrite code_authenticate_cases.
  cbn [store TestSuite.userCodes]. rewrite lookup_insert_eq.
  rewrite bool_decide_eq_true_2 by reflexivity.
  apply String.eqb_neq in Hne. now rewrite Hne.
Qed.

(** X25. Neither operation of the code back-end touches the pending code of
    another subject. *)
Theorem other_subjects_codes_are_kept f subjectID other secret (w : World TestSuite.Store) :
  requestChallenge TestSuite.CodeBackend = Some f ->
  other <> subjectID ->
  TestSuite.userCodes (store (snd (authenticate TestSuite.CodeBackend subjectID secret w))) !! other
    = TestSuite.userCodes (store w) !! other
  /\ TestSuite.userCodes (store (snd (f subjectID w))) !! other
     = TestSuite.userCodes (store w) !! other.
Proof.
  intros Hf Hne. split.
  - rewrite code_authenticate_cases. destruct (_ && _); [|reflexivity].
    cbn [snd store TestSuite.userCodes]. now rewrite lookup_delete_ne.
  - destruct (code_request_cases f subjectID w Hf) as (code & E1 & _).
    rewrite E1. cbn [snd store TestSuite.userCodes]. now rewrite lookup_insert_ne.
Qed.

(** ** The challenge flow through the manager *)

(** X26. With codes as the only step: a challenge requested for a subject
    without pending code delivers the next identifier; [getToken] with that
    code passes the back-end and returns what the signer gives, as a final
    result; and a second [getToken] with the same code is rejected by the
    back-end, whether or not the first one got its token. *)
Theorem challenge_flow_is_single_use (P : JWT.Primitive) subjectID code rest
    (s : State TestSuite.Store) :
  TestSuite.userCodes (store (world s)) !! subjectID = None ->
  TestSuite.uuids (store (world s)) = code :: rest ->
  code <> "" ->
  let s0 := snd (TokenManager.requestChallenge P Scenarios.codeOnly subjectID None None s) in
  let s1 := snd (TokenManager.getToken P Scenarios.codeOnly None subjectID code None s0) in
  fst (TokenManager.requestChallenge P Scenarios.codeOnly subjectID None None s)
    = inr (AuthChallenge.Make JS.Null "undefined" true)
  /\ last (TestSuite.delivered (store (world s0))) = Some (subjectID, code)
  /\ fst (TokenManager.getToken P Scenarios.codeOnly None subjectID code None s0)
     = match JWT.sign P (JWT.MkClaims (Some "code") true) TestSuite.tokenKey subjectID
               JWT.expiresIn (now (world s)) with
       | inl e => inl e
       | inr token =>
           if String.eqb token "" then inl AuthResult.invalid
           else inr (AuthResult.Make token true JS.Null)
       end
  /\ fst (TokenManager.getToken P Scenarios.codeOnly None subjectID code None s1)
     = inl (JS.mkError "Invalid code").
Proof.
  intros Hnone Huuid Hne.
  assert (R : forall st,
             TokenManager._verifyPreviousToken P Scenarios.codeOnly None subjectID None st
             = (inr (TokenManager.MkVerificationResult None (Some "code")), st)).
  { intros st. now rewrite resolution_absent by reflexivity. }
  assert (B : TokenManager.property (TokenManager._authBackends Scenarios.codeOnly) (Some "code")
              = Some TestSuite.CodeBackend) by reflexivity.
  destruct (requestChallenge TestSuite.CodeBackend) as [f|] eqn:Hf; [|discriminate Hf].
  destruct (code_request_cases f subjectID (world s) Hf) as (c & E & Hc).
  rewrite Hnone in Hc, E. unfold TestSuite.uuid_v4 in Hc. rewrite Huuid in Hc, E.
  cbn [fst tail] in Hc, E. subst c.
  assert (Q : TokenManager.requestChallenge P Scenarios.codeOnly subjectID None None s
              = (inr (AuthChallenge.Make JS.Null "undefined" true),
                 MkState (MkWorld (now (world s))
                            (TestSuite.MkStore (<[subjectID := code]> (TestSuite.userCodes (store (world s))))
                               rest (TestSuite.delivered (store (world s)) ++ [(subjectID, code)])))
                   (log s ++ [EvRequestChallenge "code" subjectID]))).
  { rewrite (requestChallenge_resolved P _ _ _ _ _ _ _ (R s)). cbv zeta.
    cbn [TokenManager.method]. rewrite B, Hf, E. reflexivity. }
  assert (G : forall secret st,
             TokenManager.getToken P Scenarios.codeOnly None subjectID secret None st =
               let call := EvAuthenticate "code" subjectID secret in
               let claims := JWT.MkClaims (Some "code") true in
               match authenticate TestSuite.CodeBackend subjectID secret (world st) with
               | (inl e, w) => (inl e, MkState w (log st ++ [call]))
               | (inr _, w) =>
                   (match JWT.sign P claims TestSuite.tokenKey subjectID JWT.expiresIn (now w) with
                    | inl e => inl e
                    | inr token =>
                        if String.eqb token "" then inl AuthResult.invalid
                        else inr (AuthResult.Make token true JS.Null)
                    end, MkState w (log st ++ [call; EvSign claims subjectID]))
               end).
  { intros secret st. rewrite (getToken_resolved P _ _ _ _ _ _ _ _ (R st)). cbv zeta.
    cbn [TokenManager.method]. rewrite B.
    change (JS.indexOf (TokenManager._authSteps Scenarios.codeOnly) (Some "code")
            =? Z.of_nat (length (TokenManager._authSteps Scenarios.codeOnly)) - 1) with true.
    cbv iota.
    destruct (authenticate TestSuite.CodeBackend subjectID secret (world st)) as [[e|[]] w];
      [reflexivity|].
    unfold record. cbn [world log]. rewrite <- app_assoc.
    destruct (JWT.sign P _ _ subjectID JWT.expiresIn (now w)) as [e|token]; [reflexivity|].
    unfold AuthResult.constructor. cbn. now destruct (String.eqb token ""). }
  intros s0 s1. subst s0 s1. rewrite Q. cbn [fst snd].
  split; [reflexivity|]. split; [apply last_snoc|].
  rewrite !G. cbv zeta. rewrite !code_authenticate_cases.
  cbn [world store TestSuite.userCodes now]. rewrite lookup_insert_eq.
  rewrite bool_decide_eq_true_2 by reflexivity.
  apply String.eqb_neq in Hne. rewrite Hne. cbn [negb andb fst snd].
  split; [reflexivity|].
  cbn [world store TestSuite.userCodes now]. rewrite lookup_delete_eq.
  now rewrite (bool_decide_eq_false_2 (None = Some code)) by discriminate.
Qed.

(** ** The further properties at work *)

(** The intermediate token of the two-factor manager, shown to the manager
    that only knows codes. *)
Lemma unknown_previous_step_is_rejected_witness :
  TokenManager.getToken PlainToken.primitive Scenarios.codeOnly
    (Some TestSuite.intermediateToken) "user1" "c0de" None TestSuite.challenged
  = (inl TokenManager.err_previous_step,
     record (EvVerify TestSuite.intermediateToken "user1") TestSuite.challenged).
Proof.
  apply (unknown_previous_step_is_rejected PlainToken.primitive Scenarios.codeOnly
           TestSuite.intermediateToken "user1" None TestSuite.challenged
           TestSuite.intermediatePayload).
  - exact plain_lawful.
  - vm_compute. reflexivity.
  - reflexivity.
  - intros f [= <-] Hin. apply list_elem_of_singleton in Hin. discriminate Hin.
Defined.

Lemma verification_failure_propagates_witness :
  TokenManager.getToken PlainToken.primitive TestSuite.single
    (Some "not a token") "user1" "password1" None TestSuite.start
  = (inl (PlainToken.JsonWebTokenError "jwt malformed"),
     MkState (world TestSuite.start) [EvVerify "not a token" "user1"]).
Proof.
  apply (verification_failure_propagates PlainToken.primitive TestSuite.single
           "not a token" "user1" None TestSuite.start).
  - discriminate.
  - vm_compute. reflexivity.
Defined.


(** The transparent primitive refuses to sign with an empty key. *)
Lemma sign_failure_keeps_backend_effect_witness :
  TokenManager.getToken PlainToken.primitive Scenarios.keyless
    None "user1" "password1" None TestSuite.start
  = (inl (JS.mkError "secretOrPrivateKey must have a value"),
     MkState (world TestSuite.start)
       [EvAuthenticate "password" "user1" "password1";
        EvSign (JWT.MkClaims (Some "password") true) "user1"]).
Proof.
  apply (sign_failure_keeps_backend_effect PlainToken.primitive Scenarios.keyless
           None "user1" "password1" None TestSuite.start
           (TokenManager.MkVerificationResult None (Some "password")) TestSuite.start
           TestSuite.passwordBackend (world TestSuite.start)).
  - vm_compute. reflexivity.
  - vm_compute. reflexivity.
  - vm_compute. reflexivity.
  - vm_compute. reflexivity.
Defined.

Lemma fulfilled_getToken_calls_witness :
  exists m,
    m ∈ TokenManager._authSteps TestSuite.twoFactor
    /\ log (snd (TokenManager.getToken PlainToken.primitive TestSuite.twoFactor
                   (Some TestSuite.intermediateToken) "user1" "c0de" None TestSuite.challenged))
       = [EvVerify TestSuite.intermediateToken "user1";
          EvAuthenticate m "user1" "c0de";
          EvSign (JWT.MkClaims (Some m) true) "user1"].
Proof.
  apply (fulfilled_getToken_calls PlainToken.primitive TestSuite.twoFactor
           (Some TestSuite.intermediateToken) "user1" "c0de" None TestSuite.challenged
           TestSuite.secondResult).
  vm_compute. reflexivity.
Defined.

Lemma requestChallenge_delegates_witness :
  TokenManager.requestChallenge PlainToken.primitive TestSuite.twoFactor
    "user1" (Some TestSuite.intermediateToken) None TestSuite.start
  = (inr (AuthChallenge.Make JS.Null "undefined" true),
     MkState
       (MkWorld 1000 (TestSuite.MkStore {[ "user1" := "c0de" ]} [] [("user1", "c0de")]))
       [EvVerify TestSuite.intermediateToken "user1"; EvRequestChallenge "code" "user1"]).
Proof.
  destruct (requestChallenge TestSuite.CodeBackend) as [f|] eqn:Hf; [|discriminate Hf].
  rewrite (requestChallenge_delegates PlainToken.primitive TestSuite.twoFactor
             (Some TestSuite.intermediateToken) "user1" None TestSuite.start
             (TokenManager.MkVerificationResult (Some TestSuite.intermediatePayload) (Some "code"))
             (record (EvVerify TestSuite.intermediateToken "user1") TestSuite.start)
             TestSuite.CodeBackend f
             (fst (f "user1" (world TestSuite.start)))
             (snd (f "user1" (world TestSuite.start)))).
  - injection Hf as <-. vm_compute. reflexivity.
  - vm_compute. reflexivity.
  - vm_compute. reflexivity.
  - exact Hf.
  - now destruct (f "user1" (world TestSuite.start)).
Defined.

Lemma final_token_ends_the_chain_witness :
  TokenManager.getToken PlainToken.primitive TestSuite.twoFactor
    (Some (AuthResult.token TestSuite.secondResult)) "user1" "c0de" (Some "code")
    TestSuite.challenged
  = (inl TokenManager.err_final,
     record (EvVerify (AuthResult.token TestSuite.secondResult) "user1") TestSuite.challenged).
Proof.
  exact (proj1 (final_token_ends_the_chain PlainToken.primitive TestSuite.twoFactor
                  2 TestSuite.secondResult "user1" "c0de" (Some "code") TestSuite.challenged
                  plain_lawful (proj2 two_factor_chain) eq_refl)).
Defined.

Lemma chain_follows_the_sequence_witness :
  exists m,
    TokenManager._authSteps TestSuite.twoFactor !! 1%nat = Some m
    /\ forall subject t p,
         JWT.verify PlainToken.primitive (AuthResult.token TestSuite.secondResult)
           TestSuite.tokenKey subject t = inr p ->
         JWT.from (JWT.claims p) = Some m.
Proof.
  exact (chain_follows_the_sequence PlainToken.primitive TestSuite.twoFactor
           2 TestSuite.secondResult plain_lawful (proj2 two_factor_chain)).
Defined.

Lemma empty_sequence_rejects_every_call_witness :
  exists e,
    TokenManager._verifyPreviousToken PlainToken.primitive Scenarios.stepless
      None "user1" (Some "password") TestSuite.start
      = (inl e, MkState (world TestSuite.start) [])
    /\ TokenManager.getToken PlainToken.primitive Scenarios.stepless
         None "user1" "password1" (Some "password") TestSuite.start
       = (inl e, MkState (world TestSuite.start) [])
    /\ TokenManager.requestChallenge PlainToken.primitive Scenarios.stepless
         "user1" None (Some "password") TestSuite.start
       = (inl e, MkState (world TestSuite.start) []).
Proof.
  exact (empty_sequence_rejects_every_call PlainToken.primitive Scenarios.stepless
           None "user1" "password1" (Some "password") TestSuite.start eq_refl).
Defined.

Lemma resolved_method_is_configured_witness :
  let vr := TokenManager.MkVerificationResult (Some TestSuite.intermediatePayload) (Some "code") in
  fst (TokenManager._verifyPreviousToken PlainToken.primitive TestSuite.twoFactor
         (Some TestSuite.intermediateToken) "user1" (Some "code") TestSuite.challenged) = inr vr
  /\ (exists m, TokenManager.method vr = Some m
                /\ m ∈ TokenManager._authSteps TestSuite.twoFactor).
Proof.
  intros vr. split; [vm_compute; reflexivity|].
  apply (resolved_method_is_configured PlainToken.primitive TestSuite.twoFactor
           (Some TestSuite.intermediateToken) "user1" (Some "code") TestSuite.challenged vr
           (record (EvVerify TestSuite.intermediateToken "user1") TestSuite.challenged)).
  vm_compute. reflexivity.
Defined.

Lemma explicit_default_changes_nothing_witness :
  TokenManager.getToken PlainToken.primitive TestSuite.twoFactor
    (Some TestSuite.intermediateToken) "user1" "c0de" (Some "code") TestSuite.challenged
  = TokenManager.getToken PlainToken.primitive TestSuite.twoFactor
      (Some TestSuite.intermediateToken) "user1" "c0de" None TestSuite.challenged.
Proof.
  apply (explicit_default_changes_nothing PlainToken.primitive TestSuite.twoFactor
           (Some TestSuite.intermediateToken) "user1" "c0de" None TestSuite.challenged
           (TokenManager.MkVerificationResult (Some TestSuite.intermediatePayload) (Some "code"))
           (record (EvVerify TestSuite.intermediateToken "user1") TestSuite.challenged)).
  vm_compute. reflexivity.
Defined.

Lemma advertised_next_is_resolved_witness :
  exists p,
    TokenManager._verifyPreviousToken PlainToken.primitive TestSuite.twoFactor
      (Some TestSuite.intermediateToken) "user1" None TestSuite.challenged
    = (inr (TokenManager.MkVerificationResult (Some p) (Some "code")),
       record (EvVerify TestSuite.intermediateToken "user1") TestSuite.challenged).
Proof.
  apply (advertised_next_is_resolved PlainToken.primitive TestSuite.twoFactor
           None "user1" "password1" None TestSuite.start TestSuite.firstResult
           (snd (TokenManager.getToken PlainToken.primitive TestSuite.twoFactor
                   None "user1" "password1" None TestSuite.start))
           "code" None TestSuite.challenged).
  - exact plain_lawful.
  - apply NoDup_cons. split; [|apply NoDup_singleton].
    intros H. apply list_elem_of_singleton in H. discriminate H.
  - vm_compute. reflexivity.
  - reflexivity.
  - vm_compute. reflexivity.
  - left. reflexivity.
Defined.

Lemma repeated_last_step_is_never_final_witness :
  AuthResult.final
    (AuthResult.Make TestSuite.intermediateToken false (JS.Arr [JS.Str "password"])) = false.
Proof.
  apply (repeated_last_step_is_never_final PlainToken.primitive Scenarios.repeated
           0%nat "password" None "user1" "password1" None TestSuite.start _
           (snd (TokenManager.getToken PlainToken.primitive Scenarios.repeated
                   None "user1" "password1" None TestSuite.start))).
  - reflexivity.
  - reflexivity.
  - simpl. lia.
  - vm_compute. reflexivity.
Defined.

Lemma AuthResult_rebuilds_witness :
  AuthResult.constructor
    (AuthResult.Args (JS.Str "undefined") (JS.Bool false) (JS.Arr [JS.Str "date"]))
  = inr (AuthResult.Make "undefined" false (JS.Arr [JS.Str "date"])).
Proof.
  exact (AuthResult_rebuilds
           (AuthResult.Args JS.Undefined JS.Null (JS.Arr [JS.Str "date"]))
           (AuthResult.Make "undefined" false (JS.Arr [JS.Str "date"])) eq_refl).
Defined.

Lemma omitted_final_is_true_witness :
  AuthResult.constructor (AuthResult.Args (JS.Str "t") JS.Undefined JS.Undefined)
    = inr (AuthResult.Make "t" true JS.Null)
  /\ AuthResult.constructor (AuthResult.Args (JS.Str "t") JS.Null JS.Undefined)
     = inl AuthResult.invalid.
Proof.
  apply (omitted_final_is_true (JS.Str "t")). discriminate.
Defined.

Lemma code_is_single_use_witness :
  TestSuite.userCodes
    (store (snd (authenticate TestSuite.CodeBackend "user1" "c0de" (world TestSuite.challenged))))
    !! "user1" = None
  /\ forall secret',
       authenticate TestSuite.CodeBackend "user1" secret'
         (snd (authenticate TestSuite.CodeBackend "user1" "c0de" (world TestSuite.challenged)))
       = (inl (JS.mkError "Invalid code"),
          snd (authenticate TestSuite.CodeBackend "user1" "c0de" (world TestSuite.challenged))).
Proof.
  apply (code_is_single_use "user1" "c0de" (world TestSuite.challenged)).
  vm_compute. reflexivity.
Defined.

Lemma wrong_code_is_not_consumed_witness :
  authenticate TestSuite.CodeBackend "user1" "guess" (world TestSuite.challenged)
  = (inl (JS.mkError "Invalid code"), world TestSuite.challenged).
Proof.
  destruct (authenticate TestSuite.CodeBackend "user1" "guess" (world TestSuite.challenged))
    as [[e|[]] w'] eqn:E.
  - destruct (wrong_code_is_not_consumed "user1" "guess" (world TestSuite.challenged) w' e E)
      as [-> ->].
    reflexivity.
  - vm_compute in E. discriminate E.
Defined.

Lemma repeated_challenge_resends_the_code_witness :
  exists f w1 w2,
    requestChallenge TestSuite.CodeBackend = Some f
    /\ snd (f "user1" (world TestSuite.start)) = w1
    /\ snd (f "user1" w1) = w2
    /\ TestSuite.userCodes (store w2) = TestSuite.userCodes (store w1)
    /\ TestSuite.delivered (store w2) = [("user1", "c0de"); ("user1", "c0de")].
Proof.
  destruct (requestChallenge TestSuite.CodeBackend) as [f|] eqn:Hf; [|discriminate Hf].
  exists f, (snd (f "user1" (world TestSuite.start))),
    (snd (f "user1" (snd (f "user1" (world TestSuite.start))))).
  split; [reflexivity|]. split; [reflexivity|]. split; [reflexivity|].
  destruct (repeated_challenge_resends_the_code f "user1" (world TestSuite.start)
              (snd (f "user1" (world TestSuite.start)))
              (snd (f "user1" (snd (f "user1" (world TestSuite.start)))))
              (fst (f "user1" (world TestSuite.start)))
              (fst (f "user1" (snd (f "user1" (world TestSuite.start))))) Hf)
    as (_ & Hcodes & _ & code & Hlast & Hdel).
  - now destruct (f "user1" (world TestSuite.start)).
  - now destruct (f "user1" (snd (f "user1" (world TestSuite.start)))).
  - split; [exact Hcodes|]. rewrite Hdel.
    injection Hf as <-. vm_compute in Hlast. injection Hlast as <-. vm_compute. reflexivity.
Defined.

Lemma delivered_code_is_accepted_witness :
  exists f,
    requestChallenge TestSuite.CodeBackend = Some f
    /\ fst (authenticate TestSuite.CodeBackend "user1" "c0de"
              (snd (f "user1" (world TestSuite.start)))) = inr tt.
Proof.
  destruct (requestChallenge TestSuite.CodeBackend) as [f|] eqn:Hf; [|discriminate Hf].
  exists f. split; [reflexivity|].
  destruct (delivered_code_is_accepted f "user1" (world TestSuite.start)
              (snd (f "user1" (world TestSuite.start)))
              (fst (f "user1" (world TestSuite.start))) Hf)
    as (code & Hlast & Hok).
  - now destruct (f "user1" (world TestSuite.start)).
  - injection Hf as <-. vm_compute in Hlast. injection Hlast as <-.
    apply Hok. discriminate.
Defined.

Lemma other_subjects_codes_are_kept_witness :
  TestSuite.userCodes
    (store (snd (authenticate TestSuite.CodeBackend "user2" "c0de" (world TestSuite.challenged))))
    !! "user1" = Some "c0de".
Proof.
  destruct (requestChallenge TestSuite.CodeBackend) as [f|] eqn:Hf; [|discriminate Hf].
  rewrite (proj1 (other_subjects_codes_are_kept f "user2" "user1" "c0de"
                    (world TestSuite.challenged) Hf ltac:(discriminate))).
  reflexivity.
Defined.

Lemma challenge_flow_is_single_use_witness :
  let s0 := snd (TokenManager.requestChallenge PlainToken.primitive Scenarios.codeOnly
                   "user1" None None TestSuite.start) in
  let s1 := snd (TokenManager.getToken PlainToken.primitive Scenarios.codeOnly
                   None "user1" "c0de" None s0) in
  (exists token,
     fst (TokenManager.getToken PlainToken.primitive Scenarios.codeOnly
            None "user1" "c0de" None s0) = inr (AuthResult.Make token true JS.Null))
  /\ fst (TokenManager.getToken PlainToken.primitive Scenarios.codeOnly
            None "user1" "c0de" None s1) = inl (JS.mkError "Invalid code").
Proof.
  intros s0 s1. subst s0 s1.
  destruct (challenge_flow_is_single_use PlainToken.primitive "user1" "c0de" []
              TestSuite.start eq_refl eq_refl ltac:(discriminate))
    as (_ & _ & Hfirst & Hsecond).
  split; [|exact Hsecond].
  eexists. rewrite Hfirst. vm_compute. reflexivity.
Defined.

(** The test of the Redis back-end: the prepared account logs in, and the
    token verifies to the password step. *)
Lemma redis_single_step_login_witness :
  exists token p,
    fst (TokenManager.getToken PlainToken.primitive Scenarios.redisManager
           None "user1" "sugar-Guilt-Rex" None Scenarios.prepared)
      = inr (AuthResult.Make token true JS.Null)
    /\ JWT.verify PlainToken.primitive token "mode_column8really" "user1" 1000 = inr p
    /\ JWT.from (JWT.claims p) = Some "password"
    /\ JWT.final (JWT.claims p) = true.
Proof.
  unfold Scenarios.redisManager.
  rewrite (redis_single_step_login PlainToken.primitive Scenarios.compare
             (RedisPasswordBackend.constructor (Some "masterkeytest"))
             "password" "mode_column8really" "user1" "sugar-Guilt-Rex" Scenarios.prepared).
  eexists. eexists. split; [vm_compute; reflexivity|].
  split; [vm_compute; reflexivity|]. split; reflexivity.
Defined.
